(** * blender_dependency_check.py: a shallow embedding and its properties

    The script walks a directory tree, opens every [.blend] file in the
    host (Blender, through [bpy]), records the libraries each file links
    to and the files larger than 50 MiB, and prints a report.

    The embedding follows the source statement by statement.  The
    operating system and the host are the script's environment: a disk
    (what [os.path.getsize] and the host's file reader see), a directory
    walker ([os.walk]) and the host's open documents.  Python exceptions
    are a [result]; the module-level variables, the standard output and a
    log of the calls made to the environment are threaded through a small
    state-and-exception monad. *)

From Stdlib Require Import String Ascii List ZArith Lia Bool Arith.
From Stdlib Require Import DecimalString.
From Stdlib Require DecimalFacts DecimalPos DecimalN.
Import ListNotations.
Local Open Scope string_scope.
Local Open Scope list_scope.

(** ** Python strings

    File names and paths are byte strings.  [str.lower] is modelled on the
    ASCII letters; no character outside ASCII lower-cases to one of the
    characters of [".blend"], so the suffix test of the script is the same
    on the bytes of a name as on its code points. *)

Module PyStr.

Definition ascii_lower (c : ascii) : ascii :=
  let n := nat_of_ascii c in
  if (65 <=? n)%nat && (n <=? 90)%nat then ascii_of_nat (n + 32) else c.

Fixpoint lower (s : string) : string :=
  match s with
  | EmptyString => EmptyString
  | String c r => String (ascii_lower c) (lower r)
  end.

(** [s.endswith(suffix)] *)
Definition endswith (s suffix : string) : bool :=
  let n := String.length s in
  let m := String.length suffix in
  (m <=? n)%nat && String.eqb (substring (n - m) m s) suffix.

(** [s.startswith(p)] *)
Definition startswith (s p : string) : bool := String.prefix p s.

(** Decimal digits of a natural number, as [str(n)] prints them. *)
Definition str_of_N (n : N) : string := NilEmpty.string_of_uint (N.to_uint n).

End PyStr.

(** ** [os.path.join] (posixpath), at two arguments *)

Definition os_path_join (a b : string) : string :=
  if PyStr.startswith b "/" then b
  else if String.eqb a "" || PyStr.endswith a "/" then a ++ b
  else a ++ "/" ++ b.

(** ** Exceptions *)

Inductive exn : Type :=
| OSError (filename : string)
| RuntimeError (message : string)
| OtherError (message : string).

Inductive result (A : Type) : Type :=
| Ok (a : A)
| Raise (e : exn).
Arguments Ok {A} a.
Arguments Raise {A} e.

(** ** Directory trees and [os.walk]

    A directory listing as [os.scandir] returns it, entry by entry.
    [os.walk] is called with its defaults: top-down, [onerror=None] (an
    [OSError] of [scandir] is swallowed and the directory skipped) and
    [followlinks=False] (a link to a directory is listed among [dirs] and
    not descended into).  A link to a directory and a directory that
    cannot be scanned still hold entries, which the walk never sees. *)

#[local] Set Warnings "-register-all".
Inductive entry : Type :=
| File (name : string)
| Dir (name : string) (children : list entry)
| DirLink (name : string) (target : list entry)
| DirDenied (name : string) (hidden : list entry).

Definition walk_triple : Type := (string * list string * list string)%type.

Definition entry_name (e : entry) : string :=
  match e with
  | File n | Dir n _ | DirLink n _ | DirDenied n _ => n
  end.

Definition is_dir (e : entry) : bool :=
  match e with File _ => false | _ => true end.

Definition scan_dirs (es : list entry) : list string :=
  map entry_name (filter is_dir es).

Definition scan_nondirs (es : list entry) : list string :=
  map entry_name (filter (fun e => negb (is_dir e)) es).

(** The triples yielded below the directory [top] for its entry [e]. *)
Fixpoint walk_sub (top : string) (e : entry) {struct e} : list walk_triple :=
  match e with
  | Dir d ch =>
      let new_path := os_path_join top d in
      (new_path, scan_dirs ch, scan_nondirs ch) :: flat_map (walk_sub new_path) ch
  | _ => []
  end.

Definition walk (top : string) (es : list entry) : list walk_triple :=
  (top, scan_dirs es, scan_nondirs es) :: flat_map (walk_sub top) es.

(** What [os.scandir(top)] finds at the top of a walk: the entries of the
    directory, or nothing when [top] cannot be scanned (it is missing, is
    no directory, or may not be read). *)
Definition tree : Type := option (list entry).

(** [os.walk(top)] over a tree. *)
Definition os_walk_tree (root : tree) (top : string) : result (list walk_triple) :=
  match root with
  | Some es => Ok (walk top es)
  | None => Ok []
  end.

(** ** [find_blend_files] *)

Definition is_blend (f : string) : bool :=
  PyStr.endswith (PyStr.lower f) ".blend".

Definition collect_blend (triples : list walk_triple) : list string :=
  fold_left
    (fun blend_files (t : walk_triple) =>
       let '(root, _, files) := t in
       fold_left
         (fun blend_files f =>
            if is_blend f then blend_files ++ [os_path_join root f]
            else blend_files)
         files blend_files)
    triples [].

Section Discovery.

(** [os.walk], as the environment provides it. *)
Variable os_walk : string -> result (list walk_triple).

Definition find_blend_files (directory : string) : result (list string) :=
  match os_walk directory with
  | Raise e => Raise e
  | Ok triples => Ok (collect_blend triples)
  end.

End Discovery.

Definition directory : string := "./../".

(** ** [dict]: insertion-ordered, as iterated by [items()]

    Assigning to a key that is present replaces its value in place;
    assigning to a new key appends it. *)

Definition dict (V : Type) : Type := list (string * V).

Fixpoint dict_set {V : Type} (d : dict V) (k : string) (v : V) : dict V :=
  match d with
  | [] => [(k, v)]
  | (k', v') :: d' =>
      if String.eqb k' k then (k', v) :: d' else (k', v') :: dict_set d' k v
  end.

Fixpoint dict_get {V : Type} (d : dict V) (k : string) : option V :=
  match d with
  | [] => None
  | (k', v') :: d' => if String.eqb k' k then Some v' else dict_get d' k
  end.

Definition dict_keys {V : Type} (d : dict V) : list string := map fst d.

Definition dict_items {V : Type} (d : dict V) : list (string * V) := d.

(** ** [size / (1024 * 1024)] and the format [:.2f]

    The quotient of two ints is the double nearest to the exact quotient.
    The divisor is a power of two, so that double is [to_double size]
    over [2^20], where [to_double] rounds an integer to 53 significant
    bits, ties to even.  [:.2f] prints the decimal with two fractional
    digits nearest to the double's exact value, ties to even. *)

Module PyFloat.

(** The integer nearest to [a / b] for [0 < b], ties to even. *)
Definition round_half_even (a b : Z) : Z :=
  let q := (a / b)%Z in
  let r := (a mod b)%Z in
  if (2 * r <? b)%Z then q
  else if (b <? 2 * r)%Z then (q + 1)%Z
  else if Z.even q then q else (q + 1)%Z.

Definition to_double (n : Z) : Z :=
  let k := (Z.log2 n - 52)%Z in
  if (k <=? 0)%Z then n else (round_half_even n (2 ^ k) * 2 ^ k)%Z.

(** Hundredths printed for the double [num / 2^20]. *)
Definition hundredths (num : Z) : Z := round_half_even (num * 100) (2 ^ 20).

Definition two_digits (d : Z) : string :=
  if (d <? 10)%Z then "0" ++ PyStr.str_of_N (Z.to_N d) else PyStr.str_of_N (Z.to_N d).

(** [f"{size / (1024 * 1024):.2f}"] for [0 <= size]. *)
Definition format_mib_2f (size : Z) : string :=
  let h := hundredths (to_double size) in
  PyStr.str_of_N (Z.to_N (h / 100)) ++ "." ++ two_digits (h mod 100).

End PyFloat.

(** ** The environment: disk and host *)

(** [bpy.types.Library], as far as the script reads it. *)
Record library : Type := mkLibrary { filepath : string }.

(** A file on disk: its size in bytes and the library table the host
    finds in it, [None] when the host cannot read the file. *)
Record blend : Type := mkBlend { st_size : Z; lib_table : option (list library) }.

Definition disk : Type := string -> option blend.

(** A document held in memory by the host. *)
Record document : Type := mkDocument { doc_filepath : string; doc_libraries : list library }.

(** The documents open in the host, the active one first. *)
Definition host : Type := list document.

(** Calls the script can make to its environment. *)
Inductive event : Type :=
| EWalk (top : string)
| EGetsize (path : string)
| EOpenMainfile (path : string)
| EDataLibraries
| ESaveAsMainfile (path : string) (compress : bool).

Definition writes_disk (e : event) : bool :=
  match e with ESaveAsMainfile _ _ => true | _ => false end.

(** ** Interpreter state and the monad of statements *)

Record state : Type := mkState {
  st_disk : disk;
  st_host : host;
  results_libs : dict (list string);
  results_size : dict Z;
  stdout : list string;
  (** each call with the host as it left it *)
  trace : list (event * host)
}.

Definition M (A : Type) : Type := state -> result A * state.

Definition ret {A : Type} (a : A) : M A := fun s => (Ok a, s).

Definition bind {A B : Type} (m : M A) (k : A -> M B) : M B :=
  fun s =>
    match m s with
    | (Ok a, s') => k a s'
    | (Raise e, s') => (Raise e, s')
    end.

Declare Scope py_scope.
Delimit Scope py_scope with py.
Notation "x <- m ;; k" := (bind m (fun x => k))
  (at level 61, m at next level, right associativity) : py_scope.
Notation "m ;; k" := (bind m (fun _ => k))
  (at level 61, right associativity) : py_scope.
Local Open Scope py_scope.

Definition log (e : event) (s : state) : state :=
  mkState (st_disk s) (st_host s) (results_libs s) (results_size s) (stdout s)
          (trace s ++ [(e, st_host s)]).

Definition with_host (h : host) (s : state) : state :=
  mkState (st_disk s) h (results_libs s) (results_size s) (stdout s) (trace s).

Definition with_disk (d : disk) (s : state) : state :=
  mkState d (st_host s) (results_libs s) (results_size s) (stdout s) (trace s).

(** [results_libs = ...], [results_size = ...] *)
Definition assign_results_libs (d : dict (list string)) : M unit :=
  fun s => (Ok tt, mkState (st_disk s) (st_host s) d (results_size s) (stdout s) (trace s)).

Definition assign_results_size (d : dict Z) : M unit :=
  fun s => (Ok tt, mkState (st_disk s) (st_host s) (results_libs s) d (stdout s) (trace s)).

(** [results_libs[k] = v], [results_size[k] = v] *)
Definition setitem_results_libs (k : string) (v : list string) : M unit :=
  fun s => assign_results_libs (dict_set (results_libs s) k v) s.

Definition setitem_results_size (k : string) (v : Z) : M unit :=
  fun s => assign_results_size (dict_set (results_size s) k v) s.

Definition get_results_libs : M (dict (list string)) := fun s => (Ok (results_libs s), s).
Definition get_results_size : M (dict Z) := fun s => (Ok (results_size s), s).

(** [print(line)] *)
Definition print (line : string) : M unit :=
  fun s => (Ok tt, mkState (st_disk s) (st_host s) (results_libs s) (results_size s)
                           (stdout s ++ [line]) (trace s)).

(** [os.path.getsize(path)] *)
Definition os_path_getsize (path : string) : M Z :=
  fun s =>
    match st_disk s path with
    | Some b => (Ok (st_size b), log (EGetsize path) s)
    | None => (Raise (OSError path), log (EGetsize path) s)
    end.

(** [bpy.ops.wm.open_mainfile(filepath=path)]: the file read replaces all
    that the host held; a file that cannot be read leaves the host as it
    was and raises. *)
Definition open_mainfile (path : string) : M unit :=
  fun s =>
    match st_disk s path with
    | Some (mkBlend _ (Some libs)) =>
        (Ok tt, log (EOpenMainfile path) (with_host [mkDocument path libs] s))
    | _ => (Raise (RuntimeError path), log (EOpenMainfile path) s)
    end.

(** [bpy.data.libraries]: the libraries of the active document. *)
Definition active_libraries (h : host) : list library :=
  match h with
  | [] => []
  | d :: _ => doc_libraries d
  end.

Definition bpy_data_libraries : M (list library) :=
  fun s => (Ok (active_libraries (st_host s)), log EDataLibraries s).

(** [bpy.ops.wm.save_as_mainfile(filepath=path, compress=...)], which the
    script keeps in a comment: the active document is written to [path],
    [written] bytes long. *)
Definition disk_write (d : disk) (path : string) (b : blend) : disk :=
  fun p => if String.eqb p path then Some b else d p.

Definition save_as_mainfile (path : string) (compress : bool) (written : Z) : M unit :=
  fun s =>
    let b := mkBlend written (Some (active_libraries (st_host s))) in
    (Ok tt, log (ESaveAsMainfile path compress) (with_disk (disk_write (st_disk s) path b) s)).

Fixpoint for_each {A : Type} (l : list A) (body : A -> M unit) : M unit :=
  match l with
  | [] => ret tt
  | x :: l' => body x ;; for_each l' body
  end.

(** ** The script *)

Definition size_limit : Z := 50 * 1024 * 1024.

(** The body of [for blend_file in blend_files]. *)
Definition inspect (blend_file : string) : M unit :=
  file_size <- os_path_getsize blend_file ;;
  (if (file_size >? 50 * 1024 * 1024)%Z
   then setitem_results_size blend_file file_size
   else ret tt) ;;
  open_mainfile blend_file ;;
  libraries <- bpy_data_libraries ;;
  if (List.length libraries =? 0)%nat
  then setitem_results_libs blend_file []
  else setitem_results_libs blend_file (map filepath libraries).

(** The body of [for blend_file, libs in results_libs.items()]. *)
Definition report_libs (item : string * list string) : M unit :=
  let '(blend_file, libs) := item in
  match libs with
  | [] => ret tt
  | _ :: _ =>
      print ("Blend File: " ++ blend_file) ;;
      for_each libs (fun lib => print ("    - " ++ lib))
  end.

(** The body of [for blend_file, size in results_size.items()]. *)
Definition report_size (item : string * Z) : M unit :=
  let '(blend_file, size) := item in
  print ("Warning: File " ++ blend_file ++ " is " ++ PyFloat.format_mib_2f size ++ "MB").

Definition report : M unit :=
  print "Final Results:" ;;
  libs_items <- get_results_libs ;;
  for_each (dict_items libs_items) report_libs ;;
  size_items <- get_results_size ;;
  for_each (dict_items size_items) report_size.

Section Script.

Variable os_walk : string -> result (list walk_triple).

(** [find_blend_files(directory)], as a statement. *)
Definition call_find_blend_files (dir : string) : M (list string) :=
  fun s => (find_blend_files os_walk dir, log (EWalk dir) s).

Definition script : M unit :=
  blend_files <- call_find_blend_files directory ;;
  assign_results_libs [] ;;
  assign_results_size [] ;;
  for_each blend_files inspect ;;
  report.

(** A run in a fresh interpreter, on a disk and a host. *)
Definition boot (d : disk) (h : host) : state := mkState d h [] [] [] [].

Definition run (d : disk) (h : host) : result unit * state := script (boot d h).

End Script.

(** A small tree to run the discovery on. *)
Definition sample_tree : tree :=
  Some
    [ File "fish.blend";
      File "notes.txt";
      Dir "old.blend" [ File "Reef.BLEND"; File "reef.blend1" ];
      DirLink "shared" [ File "linked.blend" ];
      Dir "tex" [ File "a.png"; Dir "deep" [ File "kelp.Blend" ] ];
      DirDenied "private" [ File "secret.blend" ];
      File "blend" ].


(** ** Sample environments *)

Definition MiB : Z := 1024 * 1024.

(** One 10 MiB file with two library references, one 60 MiB file with
    none. *)
Definition demo_tree : tree :=
  Some [ File "scene.blend"; Dir "props" [ File "rock.blend" ] ].

Definition demo_disk : disk :=
  fun p =>
    if String.eqb p "./../scene.blend"
    then Some (mkBlend (10 * MiB)
                 (Some [mkLibrary "//props/rock.blend"; mkLibrary "//lib/water.blend"]))
    else if String.eqb p "./../props/rock.blend"
    then Some (mkBlend (60 * MiB) (Some []))
    else None.

Definition startup : host := [mkDocument "" []].

(** Two files around the size limit, neither linking anything. *)
Definition boundary_tree : tree :=
  Some [ File "edge.blend"; File "over.blend" ].

Definition boundary_disk : disk :=
  fun p =>
    if String.eqb p "./../edge.blend"
    then Some (mkBlend (50 * 1024 * 1024) (Some []))
    else if String.eqb p "./../over.blend"
    then Some (mkBlend (50 * 1024 * 1024 + 1) (Some []))
    else None.

(** A readable file, then a 60 MiB file the host cannot read, then a
    file that is never reached. *)
Definition corrupt_tree : tree :=
  Some [ File "a.blend"; File "broken.blend"; File "z.blend" ].

Definition corrupt_disk : disk :=
  fun p =>
    if String.eqb p "./../a.blend"
    then Some (mkBlend (70 * MiB) (Some [mkLibrary "//lib/water.blend"]))
    else if String.eqb p "./../broken.blend"
    then Some (mkBlend (60 * MiB) None)
    else if String.eqb p "./../z.blend"
    then Some (mkBlend 1024 (Some []))
    else None.

(** One file an eighth of a mebibyte above the limit: 50.125 MiB. *)
Definition eighth_tree : tree := Some [ File "eighth.blend" ].

Definition eighth_disk : disk :=
  fun p =>
    if String.eqb p "./../eighth.blend"
    then Some (mkBlend (50 * 1024 * 1024 + 131072) (Some []))
    else None.

(** A disk on which nothing that is discovered can be measured. *)
Definition empty_disk : disk := fun _ => None.

(** Two files that link nothing, one small and one of exactly 50 MiB. *)
Definition clean_tree : tree := Some [ File "small.blend"; Dir "sub" [ File "edge.BLEND" ] ].

Definition clean_disk : disk :=
  fun p =>
    if String.eqb p "./../small.blend"
    then Some (mkBlend 1024 (Some []))
    else if String.eqb p "./../sub/edge.BLEND"
    then Some (mkBlend (50 * 1024 * 1024) (Some []))
    else None.

(** A disk on which every path is a small file that links nothing. *)
Definition small_disk : disk := fun _ => Some (mkBlend 1024 (Some [])).

(** A walk that is interrupted. *)
Definition broken_walk (top : string) : result (list walk_triple) :=
  Raise (OtherError "interrupted").

(** ** Vocabulary of the statements *)

(** The entries [os.walk] finds in a directory entry, and at the top of a
    tree. *)
Definition contents (e : entry) : list entry :=
  match e with
  | Dir _ ch => ch
  | _ => []
  end.

Definition top_entries (root : tree) : list entry :=
  match root with
  | Some es => es
  | None => []
  end.

(** [file_at top es root name]: in the tree of the directory [top] with
    entries [es], the directory of path [root] holds the non-directory
    entry [name]. *)
Inductive file_at : string -> list entry -> string -> string -> Prop :=
| file_here top es name :
    In (File name) es -> file_at top es top name
| file_below top es d ch root name :
    In (Dir d ch) es ->
    file_at (os_path_join top d) ch root name ->
    file_at top es root name.

(** The paths one triple of [os.walk] contributes. *)
Definition triple_paths (t : walk_triple) : list string :=
  map (os_path_join (fst (fst t))) (filter is_blend (snd t)).

(** The paths collected over a tree. *)
Definition discovered_in (root : tree) (top : string) : list string :=
  match root with
  | Some es => flat_map triple_paths (walk top es)
  | None => []
  end.

(** The paths collected are those of the matching files of the tree. *)
Definition paths_exact (es : list entry) : Prop :=
  forall top p,
    In p (flat_map triple_paths (walk top es)) <->
    exists dir name,
      file_at top es dir name /\ is_blend name = true /\ p = os_path_join dir name.

(** Number of non-directory entries of a tree whose name satisfies [P],
    wherever they lie. *)
Fixpoint count_in (P : string -> bool) (e : entry) {struct e} : nat :=
  match e with
  | File n => if P n then 1 else 0
  | Dir _ ch | DirLink _ ch | DirDenied _ ch => list_sum (map (count_in P) ch)
  end.

Definition count_files (P : string -> bool) (es : list entry) : nat :=
  list_sum (map (count_in P) es).

(** The same number, but only in the directories the walk scans: not
    below a link to a directory, not in a directory that cannot be
    scanned. *)
Fixpoint scanned_in (P : string -> bool) (e : entry) {struct e} : nat :=
  match e with
  | File n => if P n then 1 else 0
  | Dir _ ch => list_sum (map (scanned_in P) ch)
  | _ => 0
  end.

Definition count_scanned (P : string -> bool) (es : list entry) : nat :=
  list_sum (map (scanned_in P) es).

(** No link to a directory and no directory that cannot be scanned. *)
Fixpoint fully_scanned (e : entry) {struct e} : bool :=
  match e with
  | File _ => true
  | Dir _ ch => forallb fully_scanned ch
  | _ => false
  end.

(** The name ends with [.blend], each letter in either case: the words
    of the contract, letter by letter.  [blend_ext s] says that [s] is
    such an extension and nothing more, [blend_suffix name] that some
    tail of the name is. *)
Definition either_case (lo up c : ascii) : bool := Ascii.eqb c lo || Ascii.eqb c up.

Definition blend_ext (s : string) : bool :=
  match s with
  | String dot (String b (String l (String e (String n (String d EmptyString))))) =>
      Ascii.eqb dot "." && either_case "b" "B" b && either_case "l" "L" l
      && either_case "e" "E" e && either_case "n" "N" n && either_case "d" "D" d
  | _ => false
  end.

Fixpoint blend_suffix (name : string) : bool :=
  match name with
  | EmptyString => false
  | String _ rest => blend_ext name || blend_suffix rest
  end.

(** A tree with a directory that cannot be scanned and a link to a
    directory, each holding a matching file. *)
Definition hidden_tree : tree :=
  Some [ File "a.blend";
         DirDenied "private" [ File "secret.blend" ];
         DirLink "shared" [ File "linked.blend" ] ].

(** Reading a printed figure back: the value of a decimal digit, and of
    a non-empty row of digits in base ten. *)
Definition digit_value (c : ascii) : option Z :=
  let n := nat_of_ascii c in
  if (48 <=? n)%nat && (n <=? 57)%nat then Some (Z.of_nat (n - 48)) else None.

Fixpoint read_digits (s : string) (acc : Z) : option Z :=
  match s with
  | EmptyString => Some acc
  | String c r =>
      match digit_value c with
      | Some v => read_digits r (10 * acc + v)
      | None => None
      end
  end.

Definition read_decimal (s : string) : option Z :=
  match s with
  | EmptyString => None
  | _ => read_digits s 0
  end.

(** A path at its first occurrence only. *)
Fixpoint uniq (l : list string) : list string :=
  match l with
  | [] => []
  | x :: l' => x :: filter (fun y => negb (String.eqb y x)) (uniq l')
  end.

(** What the disk holds at a path, with defaults where it holds nothing. *)
Definition size_of (d : disk) (p : string) : Z :=
  match d p with
  | Some b => st_size b
  | None => 0%Z
  end.

Definition libs_of (d : disk) (p : string) : list string :=
  match d p with
  | Some (mkBlend _ (Some libs)) => map filepath libs
  | _ => []
  end.

(** The exception the inspection of a path raises, if any. *)
Definition inspect_error (d : disk) (p : string) : option exn :=
  match d p with
  | None => Some (OSError p)
  | Some (mkBlend _ None) => Some (RuntimeError p)
  | Some (mkBlend _ (Some _)) => None
  end.

Definition oversized (d : disk) (p : string) : bool :=
  (size_of d p >? size_limit)%Z.

(** The library table the host reads at a path. *)
Definition table_of (d : disk) (p : string) : list library :=
  match d p with
  | Some (mkBlend _ (Some libs)) => libs
  | _ => []
  end.

(** The first exception the inspection loop raises over a list of paths. *)
Fixpoint loop_error (d : disk) (paths : list string) : option exn :=
  match paths with
  | [] => None
  | p :: rest =>
      match inspect_error d p with
      | Some e => Some e
      | None => loop_error d rest
      end
  end.

(** The state one successful iteration of the inspection loop leaves. *)
Definition inspected (p : string) (s : state) : state :=
  let sz := size_of (st_disk s) p in
  let doc := mkDocument p (table_of (st_disk s) p) in
  mkState (st_disk s) [doc]
    (dict_set (results_libs s) p (libs_of (st_disk s) p))
    (if (sz >? size_limit)%Z then dict_set (results_size s) p sz else results_size s)
    (stdout s)
    (trace s ++ [(EGetsize p, st_host s); (EOpenMainfile p, [doc]); (EDataLibraries, [doc])]).

Definition loop_state (paths : list string) (s : state) : state :=
  fold_left (fun s p => inspected p s) paths s.

(** The state after printing some lines. *)
Definition printed (lines : list string) (s : state) : state :=
  mkState (st_disk s) (st_host s) (results_libs s) (results_size s)
          (stdout s ++ lines) (trace s).

(** [quiet s s']: from [s] to [s'] the disk and the standard output are
    untouched, the calls logged write nothing to disk, and a host with at
    most one open document never holds more. *)
Definition quiet (s s' : state) : Prop :=
  st_disk s' = st_disk s /\
  stdout s' = stdout s /\
  exists calls,
    trace s' = trace s ++ calls /\
    Forall (fun c => writes_disk (fst c) = false) calls /\
    (length (st_host s) <= 1 ->
     length (st_host s') <= 1 /\ Forall (fun c => length (snd c) <= 1) calls).

(** The state in which the inspection loop starts. *)
Definition started (d : disk) (h : host) : state :=
  mkState d h [] [] [] [(EWalk directory, h)].

(** An entry of a mapping computed from its key. *)
Definition keyed {V : Type} (f : string -> V) (k : string) : string * V := (k, f k).

(** The lines one iteration of each report loop prints. *)
Definition libs_lines (item : string * list string) : list string :=
  match snd item with
  | [] => []
  | libs => ("Blend File: " ++ fst item)%string
            :: map (fun lib => ("    - " ++ lib)%string) libs
  end.

Definition size_line (item : string * Z) : string :=
  ("Warning: File " ++ fst item ++ " is " ++ PyFloat.format_mib_2f (snd item) ++ "MB")%string.

(** The lines of the whole report, from the two mappings. *)
Definition report_lines (libs : dict (list string)) (sizes : dict Z) : list string :=
  "Final Results:" :: flat_map libs_lines (dict_items libs) ++ map size_line (dict_items sizes).

(** The calls one iteration of the inspection loop makes. *)
Definition inspect_calls (p : string) : list event :=
  [EGetsize p; EOpenMainfile p; EDataLibraries].

(** ** Names as directories hold them, and paths relative to the top *)

Fixpoint has_slash (s : string) : bool :=
  match s with
  | EmptyString => false
  | String c r => Ascii.eqb c "/" || has_slash r
  end.

(** A name of a directory entry: not empty, without separator. *)
Definition good_name (n : string) : bool :=
  negb (String.eqb n "") && negb (has_slash n).

Fixpoint distinct (l : list string) : bool :=
  match l with
  | [] => true
  | x :: l' => negb (existsb (String.eqb x) l') && distinct l'
  end.

(** Every entry has a good name, and the names within one directory are
    pairwise distinct. *)
Fixpoint well_named (e : entry) {struct e} : bool :=
  good_name (entry_name e)
  && match e with
     | Dir _ ch => distinct (map entry_name ch) && forallb well_named ch
     | _ => true
     end.

Definition well_named_tree (root : tree) : bool :=
  distinct (map entry_name (top_entries root)) && forallb well_named (top_entries root).

(** What [os.path.join(top, name)] puts before a good name. *)
Definition base (top : string) : string :=
  if String.eqb top "" || PyStr.endswith top "/" then top else top ++ "/".

(** The matching files of a tree, as paths relative to its top. *)
Fixpoint rel_sub (e : entry) {struct e} : list string :=
  match e with
  | Dir d ch =>
      map (fun r => (d ++ "/" ++ r)%string)
          (filter is_blend (scan_nondirs ch) ++ flat_map rel_sub ch)
  | _ => []
  end.

Definition rel_paths (es : list entry) : list string :=
  filter is_blend (scan_nondirs es) ++ flat_map rel_sub es.

(** The list [find_blend_files] returns over a tree. *)
Definition discovered (root : tree) (top : string) : list string :=
  match find_blend_files (os_walk_tree root) top with
  | Ok blend_files => blend_files
  | Raise _ => []
  end.

(** A tree with the same names at two levels. *)
Definition nested_tree : tree :=
  Some [ File "a.blend";
         Dir "a" [ File "a.blend"; Dir "a" [ File "a.BLEND"; File "b.txt" ] ];
         Dir "b" [ File "a.blend" ] ].

(** * Properties *)

Example sample_discovery :
  find_blend_files (os_walk_tree sample_tree) directory
  = Ok [ "./../fish.blend"; "./../old.blend/Reef.BLEND"; "./../tex/deep/kelp.Blend" ].
Proof. vm_compute. reflexivity. Qed.


(** With [onerror=None] the walk of a tree raises nothing: a directory
    that cannot be scanned is skipped. *)
Lemma os_walk_tree_total (root : tree) (top : string) :
  exists triples, os_walk_tree root top = Ok triples.
Proof. destruct root; simpl; eauto. Qed.

(** ** Strings *)

Lemma length_lower (s : string) : String.length (PyStr.lower s) = String.length s.
Proof. induction s as [|c r IH]; simpl; congruence. Qed.

Lemma lower_app (a b : string) : PyStr.lower (a ++ b) = (PyStr.lower a ++ PyStr.lower b)%string.
Proof. induction a as [|c r IH]; simpl; congruence. Qed.

Lemma lower_substring (n m : nat) (s : string) :
  PyStr.lower (substring n m s) = substring n m (PyStr.lower s).
Proof.
  revert n m; induction s as [|c r IH]; intros [|n] [|m]; simpl; auto.
  now rewrite IH.
Qed.

Lemma string_length_app (a b : string) :
  String.length (a ++ b)%string = String.length a + String.length b.
Proof. induction a as [|c r IH]; simpl; congruence. Qed.

Lemma string_app_assoc (a b c : string) : ((a ++ b) ++ c = a ++ b ++ c)%string.
Proof. induction a as [|x a IH]; simpl; congruence. Qed.

Lemma string_app_inj (b x y : string) : (b ++ x = b ++ y)%string -> x = y.
Proof. induction b as [|c b IH]; simpl; intros H; [exact H | injection H; auto]. Qed.

Lemma substring_whole (s : string) : substring 0 (String.length s) s = s.
Proof. induction s as [|c r IH]; simpl; congruence. Qed.

Lemma substring_app_drop (a b : string) :
  substring (String.length a) (String.length b) (a ++ b) = b.
Proof. induction a as [|c r IH]; simpl; auto using substring_whole. Qed.

Lemma substring_split (n m : nat) (s : string) :
  n + m = String.length s -> s = (substring 0 n s ++ substring n m s)%string.
Proof.
  revert s; induction n as [|n IH]; intros s H; simpl in H.
  - subst m. destruct s; simpl; now rewrite ?substring_whole.
  - destruct s as [|c r]; simpl in *; [discriminate|].
    f_equal. apply IH. lia.
Qed.

(** [endswith] decides being a suffix. *)
Lemma endswith_spec (s suffix : string) :
  PyStr.endswith s suffix = true <-> exists stem, s = (stem ++ suffix)%string.
Proof.
  unfold PyStr.endswith. rewrite andb_true_iff, Nat.leb_le, String.eqb_eq. split.
  - intros [Hle Hsub]. exists (substring 0 (String.length s - String.length suffix) s).
    rewrite <- Hsub at 2. apply substring_split. lia.
  - intros [stem ->]. rewrite string_length_app. split; [lia|].
    replace (String.length stem + String.length suffix - String.length suffix)
      with (String.length stem) by lia.
    apply substring_app_drop.
Qed.

(** The test of the script: the name ends with [".blend"] up to case. *)
Lemma is_blend_spec (f : string) :
  is_blend f = true <-> exists stem ext, f = (stem ++ ext)%string /\ PyStr.lower ext = ".blend".
Proof.
  unfold is_blend. split.
  - unfold PyStr.endswith. rewrite andb_true_iff, Nat.leb_le, String.eqb_eq.
    rewrite length_lower, <- lower_substring. intros [Hle Hsub].
    eexists _, _. split; [|exact Hsub]. apply substring_split. lia.
  - intros (stem & ext & -> & Hext). rewrite lower_app, Hext.
    apply endswith_spec. now eexists.
Qed.

(** ** Discovery *)

Lemma append_loop (root : string) (files acc : list string) :
  fold_left
    (fun blend_files f =>
       if is_blend f then blend_files ++ [os_path_join root f] else blend_files)
    files acc
  = acc ++ map (os_path_join root) (filter is_blend files).
Proof.
  revert acc; induction files as [|f files IH]; intros acc; simpl.
  - now rewrite app_nil_r.
  - rewrite IH. destruct (is_blend f); simpl; [rewrite <- app_assoc|]; reflexivity.
Qed.

Lemma collect_blend_from (triples : list walk_triple) (acc : list string) :
  fold_left
    (fun blend_files (t : walk_triple) =>
       let '(root, _, files) := t in
       fold_left
         (fun blend_files f =>
            if is_blend f then blend_files ++ [os_path_join root f]
            else blend_files)
         files blend_files)
    triples acc
  = acc ++ flat_map triple_paths triples.
Proof.
  revert acc; induction triples as [|[[root dirs] files] triples IH]; intros acc; simpl.
  - now rewrite app_nil_r.
  - rewrite IH, append_loop, <- app_assoc. reflexivity.
Qed.

Lemma collect_blend_flat (triples : list walk_triple) :
  collect_blend triples = flat_map triple_paths triples.
Proof. unfold collect_blend. now rewrite collect_blend_from. Qed.

Lemma entry_forall_ind (P : entry -> Prop) :
  (forall n, P (File n)) ->
  (forall n ch, Forall P ch -> P (Dir n ch)) ->
  (forall n ch, Forall P ch -> P (DirLink n ch)) ->
  (forall n ch, Forall P ch -> P (DirDenied n ch)) ->
  forall e, P e.
Proof.
  intros HF HD HL HX. fix IH 1.
  intros [n|n ch|n ch|n ch]; [apply HF | apply HD | apply HL | apply HX].
  all: induction ch as [|e ch IHch]; constructor; [apply IH | exact IHch].
Qed.

Lemma walk_sub_dir (top d : string) (ch : list entry) :
  walk_sub top (Dir d ch) = walk (os_path_join top d) ch.
Proof. reflexivity. Qed.

Lemma paths_walk (top : string) (es : list entry) :
  flat_map triple_paths (walk top es)
  = map (os_path_join top) (filter is_blend (scan_nondirs es))
    ++ flat_map triple_paths (flat_map (walk_sub top) es).
Proof. reflexivity. Qed.

Lemma in_scan_nondirs (name : string) (es : list entry) :
  In name (scan_nondirs es) <-> In (File name) es.
Proof.
  unfold scan_nondirs. rewrite in_map_iff. split.
  - intros (e & <- & He). apply filter_In in He as [He Hd].
    destruct e; simpl in *; try discriminate. exact He.
  - intros H. exists (File name). split; [reflexivity|]. apply filter_In. auto.
Qed.

Lemma file_at_inv (top : string) (es : list entry) (dir name : string) :
  file_at top es dir name <->
  (dir = top /\ In (File name) es) \/
  (exists d ch, In (Dir d ch) es /\ file_at (os_path_join top d) ch dir name).
Proof.
  split.
  - intros H. destruct H; [left; auto | right; eauto].
  - intros [[-> H] | (d & ch & H1 & H2)]; [now apply file_here | eapply file_below; eauto].
Qed.

Lemma paths_exact_children (es : list entry) :
  Forall (fun e => paths_exact (contents e)) es -> paths_exact es.
Proof.
  intros Hall top p. rewrite paths_walk, in_app_iff, in_map_iff. split.
  - intros [(name & <- & Hn) | Hsub].
    + apply filter_In in Hn as [Hn Hb]. apply in_scan_nondirs in Hn.
      exists top, name. auto using file_here.
    + apply in_flat_map in Hsub as (t & Ht & Hp).
      apply in_flat_map in Ht as (e & He & Ht).
      rewrite Forall_forall in Hall. specialize (Hall e He).
      destruct e as [n|d ch|n ch|n ch]; simpl in Ht; try contradiction.
      assert (Hin : In p (flat_map triple_paths (walk (os_path_join top d) ch))).
      { apply in_flat_map. exists t. split; [exact Ht | exact Hp]. }
      apply Hall in Hin as (dir & name & Hat & Hb & ->).
      exists dir, name. eauto using file_below.
  - intros (dir & name & Hat & Hb & ->). apply file_at_inv in Hat as [[-> Hf] | (d & ch & Hd & Hat)].
    + left. exists name. split; [reflexivity|]. apply filter_In. split; [|exact Hb].
      now apply in_scan_nondirs.
    + right. rewrite Forall_forall in Hall. specialize (Hall _ Hd). simpl in Hall.
      assert (Hin : In (os_path_join dir name)
                       (flat_map triple_paths (walk (os_path_join top d) ch))).
      { apply Hall. eauto. }
      apply in_flat_map in Hin as (t & Ht & Hp).
      apply in_flat_map. exists t. split; [|exact Hp].
      apply in_flat_map. exists (Dir d ch). split; [exact Hd | exact Ht].
Qed.

Lemma paths_exact_all (e : entry) : paths_exact (contents e).
Proof.
  induction e as [n|n ch IH|n ch IH|n ch IH] using entry_forall_ind;
    try (apply paths_exact_children; constructor).
  now apply paths_exact_children.
Qed.

Lemma scanned_children (top : string) (es : list entry) :
  Forall (fun e => forall top', length (flat_map triple_paths (walk top' (contents e)))
                                = count_scanned is_blend (contents e)) es ->
  length (flat_map triple_paths (walk top es)) = count_scanned is_blend es.
Proof.
  intros Hall. rewrite paths_walk, length_app, length_map. unfold count_scanned.
  induction Hall as [|e es He Hes IH]; [reflexivity|].
  unfold scan_nondirs in *.
  destruct e as [n|d ch|n ch|n ch]; simpl; try exact IH.
  - destruct (is_blend n); simpl; lia.
  - rewrite length_app. specialize (He (os_path_join top d)).
    simpl in He. unfold count_scanned in He.
    rewrite length_app in He. rewrite flat_map_app, length_app. lia.
Qed.

Lemma scanned_walk (e : entry) (top : string) :
  length (flat_map triple_paths (walk top (contents e)))
  = count_scanned is_blend (contents e).
Proof.
  revert top. induction e as [n|n ch IH|n ch IH|n ch IH] using entry_forall_ind; intros top;
    try reflexivity.
  now apply scanned_children.
Qed.

Lemma list_sum_split {A : Type} (f g k : A -> nat) (l : list A) :
  Forall (fun x => f x + g x = k x) l ->
  list_sum (map f l) + list_sum (map g l) = list_sum (map k l).
Proof. induction 1 as [|x l Hx Hl IH]; simpl; [reflexivity | lia]. Qed.

Lemma list_sum_le {A : Type} (f g : A -> nat) (l : list A) :
  Forall (fun x => f x <= g x) l -> list_sum (map f l) <= list_sum (map g l).
Proof. induction 1 as [|x l Hx Hl IH]; simpl; [constructor | lia]. Qed.

Lemma list_sum_same {A : Type} (f g : A -> nat) (l : list A) :
  Forall (fun x => f x = g x) l -> list_sum (map f l) = list_sum (map g l).
Proof. induction 1 as [|x l Hx Hl IH]; simpl; [reflexivity | lia]. Qed.

Lemma scanned_in_split (P : string -> bool) (e : entry) :
  scanned_in P e + scanned_in (fun n => negb (P n)) e = scanned_in (fun _ => true) e.
Proof.
  induction e as [n|n ch IH|n ch IH|n ch IH] using entry_forall_ind; simpl; auto.
  - destruct (P n); reflexivity.
  - now apply list_sum_split.
Qed.

Lemma count_scanned_split (P : string -> bool) (es : list entry) :
  count_scanned P es + count_scanned (fun n => negb (P n)) es
  = count_scanned (fun _ => true) es.
Proof. apply (scanned_in_split P (Dir "" es)). Qed.

Lemma scanned_in_le (P : string -> bool) (e : entry) : scanned_in P e <= count_in P e.
Proof.
  induction e as [n|n ch IH|n ch IH|n ch IH] using entry_forall_ind; simpl;
    auto using list_sum_le with arith.
Qed.

Lemma scanned_in_all (P : string -> bool) (e : entry) :
  fully_scanned e = true -> scanned_in P e = count_in P e.
Proof.
  induction e as [n|n ch IH|n ch IH|n ch IH] using entry_forall_ind; simpl;
    try discriminate; [reflexivity|].
  intros Hall. apply list_sum_same. rewrite forallb_forall in Hall.
  rewrite Forall_forall in *. auto.
Qed.

(** The test of the script is the contract's: [.blend] at the end, each
    letter in either case. *)
Lemma lower_char (c : ascii) :
  Ascii.eqb (PyStr.ascii_lower c) "." = Ascii.eqb c "." /\
  Ascii.eqb (PyStr.ascii_lower c) "b" = either_case "b" "B" c /\
  Ascii.eqb (PyStr.ascii_lower c) "l" = either_case "l" "L" c /\
  Ascii.eqb (PyStr.ascii_lower c) "e" = either_case "e" "E" c /\
  Ascii.eqb (PyStr.ascii_lower c) "n" = either_case "n" "N" c /\
  Ascii.eqb (PyStr.ascii_lower c) "d" = either_case "d" "D" c.
Proof.
  destruct c as [[] [] [] [] [] [] [] []]; vm_compute; repeat split.
Qed.

Lemma blend_ext_lower (ext : string) :
  blend_ext ext = String.eqb (PyStr.lower ext) ".blend".
Proof.
  destruct ext as [|c0 [|c1 [|c2 [|c3 [|c4 [|c5 [|c6 r]]]]]]];
    cbn [blend_ext PyStr.lower String.eqb].
  7: { destruct (lower_char c0) as (-> & _), (lower_char c1) as (_ & -> & _),
         (lower_char c2) as (_ & _ & -> & _), (lower_char c3) as (_ & _ & _ & -> & _),
         (lower_char c4) as (_ & _ & _ & _ & -> & _),
         (lower_char c5) as (_ & _ & _ & _ & _ & ->).
       destruct (Ascii.eqb c0 "."), (either_case "b" "B" c1), (either_case "l" "L" c2),
         (either_case "e" "E" c3), (either_case "n" "N" c4), (either_case "d" "D" c5);
         reflexivity. }
  all: repeat match goal with
         | |- context [Ascii.eqb (PyStr.ascii_lower ?c) ?k] =>
             destruct (Ascii.eqb (PyStr.ascii_lower c) k)
         end; reflexivity.
Qed.

Lemma blend_suffix_spec (name : string) :
  blend_suffix name = true <->
  exists stem ext, name = (stem ++ ext)%string /\ blend_ext ext = true.
Proof.
  split.
  - induction name as [|c r IH]; [discriminate|]. cbn [blend_suffix].
    intros H. apply orb_true_iff in H as [H|H].
    + exists "", (String c r). auto.
    + destruct (IH H) as (stem & ext & -> & Hext). exists (String c stem), ext. auto.
  - intros (stem & ext & -> & Hext). induction stem as [|c stem IH].
    + destruct ext as [|c r]; [discriminate|]. cbn [String.append blend_suffix].
      now rewrite Hext.
    + cbn [String.append blend_suffix]. rewrite IH. apply orb_true_r.
Qed.

Lemma is_blend_suffix (name : string) : is_blend name = blend_suffix name.
Proof.
  apply eq_true_iff_eq. rewrite is_blend_spec, blend_suffix_spec.
  split; intros (stem & ext & E & H); exists stem, ext; split; auto.
  - rewrite blend_ext_lower. now apply String.eqb_eq.
  - rewrite blend_ext_lower in H. now apply String.eqb_eq.
Qed.

Lemma count_scanned_ext (P Q : string -> bool) (es : list entry) :
  (forall n, P n = Q n) -> count_scanned P es = count_scanned Q es.
Proof.
  intros H. assert (Hin : forall e, scanned_in P e = scanned_in Q e).
  { induction e as [n|n ch IH|n ch IH|n ch IH] using entry_forall_ind; simpl; auto.
    - now rewrite H.
    - now apply list_sum_same. }
  unfold count_scanned. apply list_sum_same, Forall_forall. auto.
Qed.

(** C2, as it is worded: a tree containing N matching files yields N
    paths.  A matching file in a directory that cannot be scanned, or
    behind a link to a directory, is in the tree and is not returned. *)
Lemma files_in_skipped_directories_are_missed :
  find_blend_files (os_walk_tree hidden_tree) directory = Ok ["./../a.blend"] /\
  count_files blend_suffix (top_entries hidden_tree) = 3 /\
  length ["./../a.blend"] <> count_files blend_suffix (top_entries hidden_tree).
Proof. repeat split; vm_compute; intros H; discriminate H. Qed.

(** C2, amended.  Discovery over a directory tree returns exactly the
    matching files of the directories the walk scans: as many paths as
    those directories hold non-directory entries whose name ends with
    [.blend] in either case of each letter (whatever the number of other
    entries), and a path is returned exactly when it is the path of such
    an entry, so no directory is ever returned.  Files in a directory that
    cannot be scanned or behind a link to a directory are left out; when
    the tree has neither, the paths are as many as all the matching files
    of the tree. *)
Theorem find_blend_files_scanned (root : tree) (top : string) :
  exists paths,
    find_blend_files (os_walk_tree root) top = Ok paths /\
    length paths = count_scanned blend_suffix (top_entries root) /\
    count_scanned blend_suffix (top_entries root)
      + count_scanned (fun n => negb (blend_suffix n)) (top_entries root)
      = count_scanned (fun _ => true) (top_entries root) /\
    (forall p, In p paths <->
               exists dir name,
                 file_at top (top_entries root) dir name /\
                 blend_suffix name = true /\ p = os_path_join dir name) /\
    length paths <= count_files blend_suffix (top_entries root) /\
    (forallb fully_scanned (top_entries root) = true ->
     length paths = count_files blend_suffix (top_entries root)).
Proof.
  assert (Hlen : length (discovered_in root top)
                 = count_scanned blend_suffix (top_entries root)).
  { destruct root as [es|]; [|reflexivity]. cbn [discovered_in top_entries].
    etransitivity; [exact (scanned_walk (Dir "" es) top)|].
    apply count_scanned_ext, is_blend_suffix. }
  exists (discovered_in root top).
  split; [|split; [exact Hlen|split; [apply count_scanned_split|split; [|split]]]].
  - unfold find_blend_files. destruct root as [es|]; cbn [os_walk_tree discovered_in];
      [now rewrite collect_blend_flat | reflexivity].
  - intros p. destruct root as [es|]; cbn [discovered_in top_entries].
    + rewrite (paths_exact_all (Dir "" es) top p).
      split; intros (dir & name & Hat & Hb & Hp); exists dir, name;
        (split; [exact Hat|]); (split; [|exact Hp]).
      * now rewrite <- is_blend_suffix.
      * now rewrite is_blend_suffix.
    + split; [intros [] | intros (dir & name & Hat & _)].
      apply file_at_inv in Hat; destruct Hat as [[_ []] | (d & ch & [] & _)].
  - rewrite Hlen. apply (scanned_in_le blend_suffix (Dir "" (top_entries root))).
  - intros Hall. rewrite Hlen.
    apply (scanned_in_all blend_suffix (Dir "" (top_entries root))). exact Hall.
Qed.

Lemma find_blend_files_scanned_witness :
  exists paths,
    find_blend_files (os_walk_tree sample_tree) directory = Ok paths /\
    length paths = 3 /\
    In "./../old.blend/Reef.BLEND" paths /\
    ~ In "./../blend" paths.
Proof.
  destruct (find_blend_files_scanned sample_tree directory)
    as (paths & Hf & Hlen & _ & Hin & _).
  exists paths. split; [exact Hf|]. split; [rewrite Hlen; vm_compute; reflexivity|]. split.
  - apply Hin. exists "./../old.blend", "Reef.BLEND". split; [|split; reflexivity].
    apply (file_below directory (top_entries sample_tree) "old.blend"
                      [ File "Reef.BLEND"; File "reef.blend1" ]).
    + cbn. auto.
    + apply (file_here "./../old.blend"). cbn. auto.
  - assert (Hc : find_blend_files (os_walk_tree sample_tree) directory
                 = Ok [ "./../fish.blend"; "./../old.blend/Reef.BLEND";
                        "./../tex/deep/kelp.Blend" ]) by (vm_compute; reflexivity).
    rewrite Hc in Hf. injection Hf as <-.
    intros [H|[H|[H|[]]]]; discriminate H.
Defined.

(** ** Statements of the script, one by one *)

Lemma printed_nil (s : state) : printed [] s = s.
Proof. destruct s; unfold printed; simpl. now rewrite app_nil_r. Qed.

Lemma printed_printed (a b : list string) (s : state) :
  printed b (printed a s) = printed (a ++ b) s.
Proof. unfold printed; simpl. now rewrite app_assoc. Qed.

Lemma print_eq (line : string) (s : state) : print line s = (Ok tt, printed [line] s).
Proof. reflexivity. Qed.

Lemma for_each_print (f : string -> string) (l : list string) (s : state) :
  for_each l (fun x => print (f x)) s = (Ok tt, printed (map f l) s).
Proof.
  revert s; induction l as [|x l IH]; intros s; simpl.
  - now rewrite printed_nil.
  - unfold bind. rewrite print_eq, IH, printed_printed. reflexivity.
Qed.

Lemma report_libs_eq (item : string * list string) (s : state) :
  report_libs item s = (Ok tt, printed (libs_lines item) s).
Proof.
  destruct item as [blend_file [|lib libs]]; unfold report_libs, libs_lines.
  - simpl. now rewrite printed_nil.
  - unfold bind. rewrite print_eq, for_each_print, printed_printed. reflexivity.
Qed.

Lemma for_each_report_libs (items : list (string * list string)) (s : state) :
  for_each items report_libs s = (Ok tt, printed (flat_map libs_lines items) s).
Proof.
  revert s; induction items as [|item items IH]; intros s; simpl.
  - now rewrite printed_nil.
  - unfold bind. rewrite report_libs_eq, IH, printed_printed. reflexivity.
Qed.

Lemma for_each_report_size (items : list (string * Z)) (s : state) :
  for_each items report_size s = (Ok tt, printed (map size_line items) s).
Proof.
  revert s; induction items as [|[blend_file size] items IH]; intros s.
  - simpl. now rewrite printed_nil.
  - cbn [for_each map]. unfold bind.
    change (report_size (blend_file, size) s)
      with (print (size_line (blend_file, size)) s).
    rewrite print_eq, IH, printed_printed. reflexivity.
Qed.

(** The report never raises and prints [report_lines] of the two mappings. *)
Lemma report_eq (s : state) :
  report s = (Ok tt, printed (report_lines (results_libs s) (results_size s)) s).
Proof.
  unfold report, bind, get_results_libs, get_results_size, dict_items.
  rewrite print_eq, for_each_report_libs. cbn [results_size printed].
  rewrite for_each_report_size, !printed_printed. reflexivity.
Qed.

Lemma inspect_missing (p : string) (s : state) :
  st_disk s p = None ->
  inspect p s = (Raise (OSError p), log (EGetsize p) s).
Proof. intros H. unfold inspect, bind, os_path_getsize. now rewrite H. Qed.

Lemma inspect_unreadable (p : string) (s : state) (sz : Z) :
  st_disk s p = Some (mkBlend sz None) ->
  exists s',
    inspect p s = (Raise (RuntimeError p), s') /\
    st_disk s' = st_disk s /\ st_host s' = st_host s /\
    results_libs s' = results_libs s /\
    results_size s'
    = (if (sz >? size_limit)%Z then dict_set (results_size s) p sz else results_size s) /\
    stdout s' = stdout s /\
    trace s' = trace s ++ [(EGetsize p, st_host s); (EOpenMainfile p, st_host s)].
Proof.
  intros H. unfold inspect, bind, os_path_getsize. rewrite H.
  change (50 * 1024 * 1024)%Z with size_limit. cbn [st_size].
  destruct (sz >? size_limit)%Z; cbn -[size_limit];
    unfold open_mainfile; cbn -[size_limit]; rewrite H;
    eexists; (split; [reflexivity|]); cbn -[size_limit];
    rewrite <- ?app_assoc; auto 10.
Qed.

Lemma inspect_loadable (p : string) (s : state) :
  inspect_error (st_disk s) p = None ->
  inspect p s = (Ok tt, inspected p s).
Proof.
  unfold inspect_error, inspected, size_of, table_of, libs_of.
  destruct (st_disk s p) as [[sz [libs|]]|] eqn:H; try discriminate. intros _.
  unfold inspect, bind, os_path_getsize. rewrite H.
  change (50 * 1024 * 1024)%Z with size_limit. cbn [st_size].
  destruct (sz >? size_limit)%Z; cbn -[size_limit];
    unfold open_mainfile; cbn -[size_limit]; rewrite H; cbn -[size_limit];
    destruct libs;
    unfold setitem_results_libs, assign_results_libs, bpy_data_libraries, log, with_host;
    cbn -[size_limit]; rewrite <- !app_assoc; reflexivity.
Qed.

(** ** The inspection loop *)

Lemma quiet_refl (s : state) : quiet s s.
Proof.
  repeat split; auto. exists []. rewrite app_nil_r. repeat split; auto.
Qed.

Lemma quiet_trans (s1 s2 s3 : state) : quiet s1 s2 -> quiet s2 s3 -> quiet s1 s3.
Proof.
  intros (D1 & O1 & c1 & T1 & W1 & H1) (D2 & O2 & c2 & T2 & W2 & H2).
  split; [congruence|]. split; [congruence|].
  exists (c1 ++ c2). split; [now rewrite T2, T1, app_assoc|].
  split; [now apply Forall_app|].
  intros Hh. destruct (H1 Hh) as [Hh2 F1]. destruct (H2 Hh2) as [Hh3 F2].
  split; [exact Hh3 | now apply Forall_app].
Qed.

Lemma inspect_quiet (p : string) (s : state) : quiet s (snd (inspect p s)).
Proof.
  destruct (st_disk s p) as [[sz [libs|]]|] eqn:H.
  - rewrite inspect_loadable by (unfold inspect_error; now rewrite H).
    unfold quiet, inspected; cbn -[size_limit]. repeat split; auto.
    eexists. split; [reflexivity|]. split; [repeat constructor|].
    intros Hh. split; [lia|]. repeat (apply Forall_cons; [simpl; lia|]); apply Forall_nil.
  - destruct (inspect_unreadable p s sz H) as (s' & E & D & Hs & _ & _ & O & T).
    rewrite E. cbn [snd]. unfold quiet. repeat split; auto.
    eexists. split; [exact T|]. split; [repeat constructor|].
    intros Hh. rewrite Hs. split; [exact Hh|]. repeat (apply Forall_cons; [simpl; lia|]); apply Forall_nil.
  - rewrite inspect_missing by exact H. unfold quiet, log; cbn. repeat split; auto.
    eexists. split; [reflexivity|]. split; [repeat constructor|].
    intros Hh. split; [exact Hh|]. repeat (apply Forall_cons; [simpl; lia|]); apply Forall_nil.
Qed.

Lemma for_each_cons {A : Type} (x : A) (l : list A) (body : A -> M unit) (s : state) :
  for_each (x :: l) body s
  = match body x s with
    | (Ok _, s') => for_each l body s'
    | (Raise e, s') => (Raise e, s')
    end.
Proof. reflexivity. Qed.

Lemma loop_quiet (paths : list string) (s : state) :
  quiet s (snd (for_each paths inspect s)).
Proof.
  revert s; induction paths as [|p paths IH]; intros s.
  - apply quiet_refl.
  - rewrite for_each_cons. assert (Hq := inspect_quiet p s).
    destruct (inspect p s) as [[[]|e] s1]; cbn [snd] in *.
    + eapply quiet_trans; [exact Hq | apply IH].
    + exact Hq.
Qed.

Lemma loop_state_disk (paths : list string) (s : state) :
  st_disk (loop_state paths s) = st_disk s.
Proof.
  revert s; induction paths as [|p paths IH]; intros s; [reflexivity|].
  cbn [loop_state fold_left]. fold (loop_state paths (inspected p s)). now rewrite IH.
Qed.

(** The loop finishes exactly when no path raises, and then leaves
    [loop_state]; else it raises the first exception met. *)
Lemma loop_finishes (paths : list string) (s : state) :
  loop_error (st_disk s) paths = None ->
  for_each paths inspect s = (Ok tt, loop_state paths s).
Proof.
  revert s; induction paths as [|p paths IH]; intros s H; [reflexivity|].
  cbn [loop_error] in H. destruct (inspect_error (st_disk s) p) eqn:E; [discriminate|].
  rewrite for_each_cons, inspect_loadable by exact E.
  now apply IH.
Qed.

Lemma inspect_raises (p : string) (s : state) (e : exn) :
  inspect_error (st_disk s) p = Some e ->
  fst (inspect p s) = Raise e.
Proof.
  unfold inspect_error. destruct (st_disk s p) as [[sz [libs|]]|] eqn:H; try discriminate.
  - intros [= <-]. destruct (inspect_unreadable p s sz H) as (s' & E & _). now rewrite E.
  - intros [= <-]. now rewrite inspect_missing.
Qed.

Lemma loop_aborts (paths : list string) (s : state) (e : exn) :
  loop_error (st_disk s) paths = Some e ->
  fst (for_each paths inspect s) = Raise e.
Proof.
  revert s; induction paths as [|p paths IH]; intros s H; [discriminate|].
  cbn [loop_error] in H. rewrite for_each_cons.
  destruct (inspect_error (st_disk s) p) eqn:E.
  - injection H as <-. apply inspect_raises in E.
    destruct (inspect p s) as [[[]|e'] s1]; cbn [fst] in *; congruence.
  - rewrite inspect_loadable by exact E. apply IH.
    unfold inspected; cbn -[size_limit]. exact H.
Qed.

Lemma loop_error_in (d : disk) (paths : list string) (p : string) (e : exn) :
  In p paths -> inspect_error d p = Some e -> exists e', loop_error d paths = Some e'.
Proof.
  induction paths as [|q paths IH]; intros Hin He; cbn [loop_error]; [destruct Hin|].
  destruct Hin as [<-|Hin].
  - rewrite He. eauto.
  - destruct (inspect_error d q); eauto.
Qed.

Lemma loop_error_none (d : disk) (paths : list string) :
  loop_error d paths = None <-> Forall (fun p => inspect_error d p = None) paths.
Proof.
  induction paths as [|q paths IH]; cbn [loop_error].
  - split; auto.
  - destruct (inspect_error d q) eqn:E; split; intros H.
    + discriminate.
    + inversion H; congruence.
    + constructor; [exact E | now apply IH].
    + inversion H; now apply IH.
Qed.

(** ** Mappings filled in discovery order *)

Lemma filter_both {A : Type} (P Q : A -> bool) (l : list A) :
  filter P (filter Q l) = filter (fun y => Q y && P y) l.
Proof.
  induction l as [|x l IH]; simpl; [reflexivity|].
  destruct (Q x); simpl; [destruct (P x)|]; now rewrite IH.
Qed.

Lemma filter_all {A : Type} (P : A -> bool) (l : list A) :
  (forall x, In x l -> P x = true) -> filter P l = l.
Proof.
  induction l as [|x l IH]; simpl; intros H; [reflexivity|].
  rewrite H by auto. f_equal. auto.
Qed.

Lemma existsb_eqb_in (y : string) (ks : list string) :
  existsb (String.eqb y) ks = true <-> In y ks.
Proof.
  rewrite existsb_exists. split.
  - intros (x & Hx & E). apply String.eqb_eq in E. now subst.
  - intros H. exists y. split; [exact H | apply String.eqb_refl].
Qed.

Lemma dict_set_known {V : Type} (f : string -> V) (ks : list string) (k : string) :
  In k ks -> dict_set (map (keyed f) ks) k (f k) = map (keyed f) ks.
Proof.
  induction ks as [|x ks IH]; intros Hin; [destruct Hin|].
  cbn [map dict_set keyed]. fold (keyed f).
  destruct (String.eqb_spec x k) as [->|Hne]; [reflexivity|].
  destruct Hin as [E|Hin]; [contradiction|]. now rewrite IH.
Qed.

Lemma dict_set_new {V : Type} (f : string -> V) (ks : list string) (k : string) :
  ~ In k ks -> dict_set (map (keyed f) ks) k (f k) = map (keyed f) (ks ++ [k]).
Proof.
  induction ks as [|x ks IH]; intros Hin; [reflexivity|].
  cbn [map dict_set keyed app]. fold (keyed f).
  destruct (String.eqb_spec x k) as [->|Hne]; [exfalso; apply Hin; now left|].
  rewrite IH; [reflexivity|]. intros H. apply Hin. now right.
Qed.

Lemma fold_dict_set {V : Type} (f : string -> V) (l ks : list string) :
  fold_left (fun acc p => dict_set acc p (f p)) l (map (keyed f) ks)
  = map (keyed f) (ks ++ filter (fun y => negb (existsb (String.eqb y) ks)) (uniq l)).
Proof.
  revert ks; induction l as [|x l IH]; intros ks.
  - simpl. now rewrite app_nil_r.
  - cbn [fold_left uniq filter].
    destruct (existsb (String.eqb x) ks) eqn:E; cbn [negb].
    + apply existsb_eqb_in in E. rewrite dict_set_known by exact E.
      rewrite IH, filter_both. do 2 f_equal. apply filter_ext_in. intros y _.
      destruct (String.eqb_spec y x) as [->|Hne]; cbn [negb andb]; [|reflexivity].
      apply existsb_eqb_in in E. now rewrite E.
    + assert (Hn : ~ In x ks).
      { intros H. apply existsb_eqb_in in H. congruence. }
      rewrite dict_set_new by exact Hn. rewrite IH, filter_both, <- app_assoc.
      do 2 f_equal. cbn [app]. f_equal. apply filter_ext. intros y.
      rewrite existsb_app. cbn [existsb]. rewrite orb_false_r, negb_orb.
      apply andb_comm.
Qed.

Lemma fold_dict_set_empty {V : Type} (f : string -> V) (l : list string) :
  fold_left (fun acc p => dict_set acc p (f p)) l [] = map (keyed f) (uniq l).
Proof.
  change (@nil (string * V)) with (map (keyed f) []).
  rewrite (fold_dict_set f l []). cbn [app existsb negb].
  now rewrite filter_all by reflexivity.
Qed.

Lemma fold_dict_set_if {V : Type} (f : string -> V) (P : string -> bool)
      (l : list string) (acc : dict V) :
  fold_left (fun acc p => if P p then dict_set acc p (f p) else acc) l acc
  = fold_left (fun acc p => dict_set acc p (f p)) (filter P l) acc.
Proof.
  revert acc; induction l as [|x l IH]; intros acc; [reflexivity|].
  cbn [fold_left filter]. destruct (P x); cbn [fold_left]; apply IH.
Qed.

Lemma filter_swap {A : Type} (P Q : A -> bool) (l : list A) :
  filter P (filter Q l) = filter Q (filter P l).
Proof. rewrite !filter_both. apply filter_ext. intros x. apply andb_comm. Qed.

Lemma uniq_filter (P : string -> bool) (l : list string) :
  uniq (filter P l) = filter P (uniq l).
Proof.
  induction l as [|x l IH]; [reflexivity|].
  cbn [uniq filter]. destruct (P x) eqn:Px; cbn [uniq].
  - rewrite IH. f_equal. apply filter_swap.
  - rewrite IH, filter_both. apply filter_ext. intros y.
    destruct (String.eqb_spec y x) as [->|Hne]; cbn [negb andb]; congruence.
Qed.

Lemma in_uniq (x : string) (l : list string) : In x (uniq l) <-> In x l.
Proof.
  induction l as [|y l IH]; [reflexivity|].
  cbn [uniq In]. rewrite filter_In, IH. split.
  - intros [H|[H _]]; auto.
  - intros [H|H]; [now left|].
    destruct (String.eqb_spec x y) as [->|Hne]; [now left | right; auto].
Qed.

Lemma NoDup_uniq (l : list string) : NoDup (uniq l).
Proof.
  induction l as [|y l IH]; cbn [uniq]; constructor.
  - rewrite filter_In. intros [_ H]. now rewrite String.eqb_refl in H.
  - now apply NoDup_filter.
Qed.

Lemma uniq_NoDup (l : list string) : NoDup l -> uniq l = l.
Proof.
  induction 1 as [|y l Hy Hl IH]; [reflexivity|].
  cbn [uniq]. rewrite IH. f_equal. apply filter_all. intros x Hx.
  destruct (String.eqb_spec x y) as [->|Hne]; [contradiction | reflexivity].
Qed.

Lemma dict_keys_keyed {V : Type} (f : string -> V) (ks : list string) :
  dict_keys (map (keyed f) ks) = ks.
Proof. unfold dict_keys. rewrite map_map. apply map_id. Qed.

Lemma dict_get_keyed {V : Type} (f : string -> V) (ks : list string) (k : string) :
  dict_get (map (keyed f) ks) k = if existsb (String.eqb k) ks then Some (f k) else None.
Proof.
  induction ks as [|x ks IH]; [reflexivity|].
  cbn [map dict_get keyed existsb]. fold (keyed f). rewrite (String.eqb_sym k x).
  destruct (String.eqb_spec x k) as [->|Hne]; [reflexivity | exact IH].
Qed.

(** ** The state the inspection loop leaves *)

Lemma loop_state_cons (p : string) (paths : list string) (s : state) :
  loop_state (p :: paths) s = loop_state paths (inspected p s).
Proof. reflexivity. Qed.

Lemma loop_state_stdout (paths : list string) (s : state) :
  stdout (loop_state paths s) = stdout s.
Proof.
  revert s; induction paths as [|p paths IH]; intros s; [reflexivity|].
  now rewrite loop_state_cons, IH.
Qed.

Lemma loop_state_libs (paths : list string) (s : state) :
  results_libs (loop_state paths s)
  = fold_left (fun acc p => dict_set acc p (libs_of (st_disk s) p)) paths (results_libs s).
Proof.
  revert s; induction paths as [|p paths IH]; intros s; [reflexivity|].
  now rewrite loop_state_cons, IH.
Qed.

Lemma loop_state_size (paths : list string) (s : state) :
  results_size (loop_state paths s)
  = fold_left
      (fun acc p =>
         if oversized (st_disk s) p then dict_set acc p (size_of (st_disk s) p) else acc)
      paths (results_size s).
Proof.
  revert s; induction paths as [|p paths IH]; intros s; [reflexivity|].
  now rewrite loop_state_cons, IH.
Qed.

Lemma loop_state_events (paths : list string) (s : state) :
  map fst (trace (loop_state paths s)) = map fst (trace s) ++ flat_map inspect_calls paths.
Proof.
  revert s; induction paths as [|p paths IH]; intros s.
  - simpl. now rewrite app_nil_r.
  - rewrite loop_state_cons, IH. unfold inspected; cbn -[size_limit].
    now rewrite map_app, <- app_assoc.
Qed.

Lemma finished_libs (d : disk) (h : host) (paths : list string) :
  results_libs (loop_state paths (started d h)) = map (keyed (libs_of d)) (uniq paths).
Proof. rewrite loop_state_libs. apply fold_dict_set_empty. Qed.

Lemma finished_size (d : disk) (h : host) (paths : list string) :
  results_size (loop_state paths (started d h))
  = map (keyed (size_of d)) (filter (oversized d) (uniq paths)).
Proof.
  rewrite loop_state_size. cbn [st_disk results_size started].
  now rewrite fold_dict_set_if, fold_dict_set_empty, uniq_filter.
Qed.

(** ** Whole runs *)

Section Runs.

Variable os_walk : string -> result (list walk_triple).
Variable d : disk.
Variable h : host.

Lemma run_walk_raises (e : exn) :
  os_walk directory = Raise e ->
  run os_walk d h = (Raise e, started d h).
Proof.
  intros H. unfold run, script, bind, call_find_blend_files, find_blend_files.
  now rewrite H.
Qed.

Lemma run_unfold (paths : list string) :
  find_blend_files os_walk directory = Ok paths ->
  run os_walk d h
  = match for_each paths inspect (started d h) with
    | (Ok _, s') => report s'
    | (Raise e, s') => (Raise e, s')
    end.
Proof.
  intros H. unfold run, script, bind, call_find_blend_files. rewrite H.
  reflexivity.
Qed.

Lemma run_finished (paths : list string) :
  find_blend_files os_walk directory = Ok paths ->
  loop_error d paths = None ->
  let s := loop_state paths (started d h) in
  run os_walk d h = (Ok tt, printed (report_lines (results_libs s) (results_size s)) s).
Proof.
  intros H E s. rewrite (run_unfold paths H), loop_finishes by exact E.
  apply report_eq.
Qed.

Lemma run_aborted (paths : list string) (e : exn) :
  find_blend_files os_walk directory = Ok paths ->
  loop_error d paths = Some e ->
  exists s', run os_walk d h = (Raise e, s') /\ quiet (started d h) s'.
Proof.
  intros H E. rewrite (run_unfold paths H).
  assert (Hq := loop_quiet paths (started d h)).
  assert (Hr := loop_aborts paths (started d h) e E).
  destruct (for_each paths inspect (started d h)) as [[[]|e'] s']; cbn [fst snd] in *;
    [discriminate|].
  injection Hr as ->. eauto.
Qed.

(** A run that finishes found its paths and met no exception. *)
Lemma run_ok_inv (s' : state) :
  run os_walk d h = (Ok tt, s') ->
  exists paths,
    find_blend_files os_walk directory = Ok paths /\
    loop_error d paths = None /\
    let s := loop_state paths (started d h) in
    s' = printed (report_lines (results_libs s) (results_size s)) s.
Proof.
  intros Hrun. destruct (find_blend_files os_walk directory) as [paths|e] eqn:Hf.
  - exists paths. split; [reflexivity|].
    destruct (loop_error d paths) as [e|] eqn:E.
    + destruct (run_aborted paths e Hf E) as (s1 & Hr & _). congruence.
    + split; [reflexivity|]. rewrite (run_finished paths Hf E) in Hrun.
      now injection Hrun.
  - unfold find_blend_files in Hf. destruct (os_walk directory) eqn:Hw; [discriminate|].
    rewrite (run_walk_raises e0 Hw) in Hrun. discriminate.
Qed.

End Runs.

(** What a finished run leaves, in terms of the paths discovered. *)
Lemma finished_state (os_walk : string -> result (list walk_triple))
      (d : disk) (h : host) (paths : list string) (s' : state) :
  find_blend_files os_walk directory = Ok paths ->
  run os_walk d h = (Ok tt, s') ->
  loop_error d paths = None /\
  st_disk s' = d /\
  results_libs s' = map (keyed (libs_of d)) (uniq paths) /\
  results_size s' = map (keyed (size_of d)) (filter (oversized d) (uniq paths)) /\
  stdout s' = report_lines (results_libs s') (results_size s') /\
  map fst (trace s') = EWalk directory :: flat_map inspect_calls paths.
Proof.
  intros Hf Hrun.
  destruct (run_ok_inv os_walk d h s' Hrun) as (paths' & Hf' & E & ->).
  assert (paths' = paths) by congruence. subst paths'.
  cbn [printed st_disk results_libs results_size stdout trace].
  rewrite loop_state_disk, loop_state_stdout, loop_state_events, finished_libs, finished_size.
  repeat split; auto.
Qed.

(** ** Formatting a size *)

Lemma round_half_even_near (a b : Z) :
  (0 < b)%Z -> (2 * Z.abs (a - PyFloat.round_half_even a b * b) <= b)%Z.
Proof.
  intros Hb. unfold PyFloat.round_half_even.
  assert (Hdm := Z.div_mod a b ltac:(lia)).
  assert (Hr := Z.mod_pos_bound a b Hb).
  destruct (Z.ltb_spec (2 * (a mod b)) b); [nia|].
  destruct (Z.ltb_spec b (2 * (a mod b))); [nia|].
  destruct (Z.even (a / b)); nia.
Qed.

Lemma to_double_exact (n : Z) : (0 <= n < 2 ^ 53)%Z -> PyFloat.to_double n = n.
Proof.
  intros [H0 H1]. unfold PyFloat.to_double.
  destruct (Z.leb_spec (Z.log2 n - 52) 0) as [_|Hk]; [reflexivity|].
  exfalso. assert (0 < n)%Z.
  { destruct (Z.eq_dec n 0) as [->|]; [simpl in Hk|]; lia. }
  apply Z.log2_lt_pow2 in H1; lia.
Qed.

(** ** Reading the printed figure back *)

Lemma read_digits_acc (d : Decimal.uint) (acc : positive) :
  read_digits (NilEmpty.string_of_uint d) (Zpos acc)
  = Some (Zpos (Pos.of_uint_acc d acc)).
Proof.
  revert acc; induction d as [|d IH|d IH|d IH|d IH|d IH|d IH|d IH|d IH|d IH|d IH];
    intros acc; [reflexivity|..];
    cbn [NilEmpty.string_of_uint read_digits Pos.of_uint_acc];
    match goal with
    | |- context [digit_value ?c] =>
        let v := eval vm_compute in (digit_value c) in
        change (digit_value c) with v; cbv iota beta
    end;
    rewrite <- IH; f_equal; lia.
Qed.

Lemma read_digits_uint (d : Decimal.uint) :
  read_digits (NilEmpty.string_of_uint d) 0 = Some (Z.of_N (Pos.of_uint d)).
Proof.
  induction d as [|d IH|d IH|d IH|d IH|d IH|d IH|d IH|d IH|d IH|d IH];
    [reflexivity | exact IH |..];
    cbn [NilEmpty.string_of_uint read_digits Pos.of_uint];
    match goal with
    | |- context [digit_value ?c] =>
        let v := eval vm_compute in (digit_value c) in
        change (digit_value c) with v; cbv iota beta
    end;
    cbn [Z.mul Z.add Z.of_N]; apply read_digits_acc.
Qed.

Lemma str_of_N_nonempty (n : N) : PyStr.str_of_N n <> "".
Proof.
  unfold PyStr.str_of_N. destruct n as [|p]; [discriminate|].
  cbn [N.to_uint]. assert (H := DecimalPos.Unsigned.to_uint_nonnil p).
  destruct (Pos.to_uint p); [contradiction|discriminate..].
Qed.

(** Reading the digits of a number gives the number. *)
Lemma read_str_of_N (n : N) : read_decimal (PyStr.str_of_N n) = Some (Z.of_N n).
Proof.
  assert (Hne := str_of_N_nonempty n). unfold read_decimal.
  destruct (PyStr.str_of_N n) eqn:E; [contradiction|]. rewrite <- E.
  unfold PyStr.str_of_N. rewrite read_digits_uint.
  change (Pos.of_uint (N.to_uint n)) with (N.of_uint (N.to_uint n)).
  now rewrite DecimalN.Unsigned.of_to.
Qed.

Lemma nzhead_not_D0 (d x : Decimal.uint) : Decimal.nzhead d <> Decimal.D0 x.
Proof. induction d; cbn; try discriminate. exact IHd. Qed.

(** The digits of a number start with no zero, unless the number is 0. *)
Lemma str_of_N_canonical (n : N) :
  PyStr.str_of_N n = "0" \/
  exists c r, PyStr.str_of_N n = String c r /\ c <> "0"%char.
Proof.
  unfold PyStr.str_of_N.
  assert (Hn : Decimal.unorm (N.to_uint n) = N.to_uint n).
  { rewrite <- DecimalN.Unsigned.to_of. now rewrite DecimalN.Unsigned.of_to. }
  assert (Hne := str_of_N_nonempty n). unfold PyStr.str_of_N in Hne.
  destruct (N.to_uint n) as [|d|d|d|d|d|d|d|d|d|d]; cbn [NilEmpty.string_of_uint] in *;
    [contradiction | | right; eexists _, _; split; [reflexivity|discriminate]..].
  rewrite DecimalFacts.unorm_D0 in Hn. unfold Decimal.unorm in Hn.
  destruct (Decimal.nzhead d) eqn:E;
    try (exfalso; rewrite <- E in Hn; exact (nzhead_not_D0 _ _ Hn)); try discriminate.
  injection Hn as <-. now left.
Qed.

(** The two digits printed after the point, read back. *)
Lemma two_digits_read (x : Z) :
  (0 <= x < 100)%Z ->
  exists c1 c2,
    PyFloat.two_digits x = String c1 (String c2 "") /\
    digit_value c1 = Some (x / 10)%Z /\ digit_value c2 = Some (x mod 10)%Z.
Proof.
  intros Hx.
  assert (Hall : forallb
            (fun n =>
               match PyFloat.two_digits (Z.of_nat n) with
               | String c1 (String c2 EmptyString) =>
                   match digit_value c1, digit_value c2 with
                   | Some a, Some b =>
                       Z.eqb a (Z.of_nat n / 10) && Z.eqb b (Z.of_nat n mod 10)
                   | _, _ => false
                   end
               | _ => false
               end)
            (seq 0 100) = true) by (vm_compute; reflexivity).
  rewrite forallb_forall in Hall.
  specialize (Hall (Z.to_nat x)). rewrite Z2Nat.id in Hall by lia.
  assert (Hin : In (Z.to_nat x) (seq 0 100)) by (apply in_seq; lia).
  specialize (Hall Hin).
  destruct (PyFloat.two_digits x) as [|c1 [|c2 [|c3 r]]]; try discriminate.
  destruct (digit_value c1) as [a|] eqn:E1; [|discriminate].
  destruct (digit_value c2) as [b|] eqn:E2; [|discriminate].
  apply andb_true_iff in Hall as [Ha Hb]. apply Z.eqb_eq in Ha, Hb. subst a b.
  exists c1, c2. repeat split; assumption.
Qed.

Lemma round_half_even_tie (a b : Z) :
  (0 < b)%Z ->
  (2 * Z.abs (a - PyFloat.round_half_even a b * b) = b)%Z ->
  Z.even (PyFloat.round_half_even a b) = true.
Proof.
  intros Hb. unfold PyFloat.round_half_even.
  assert (Hdm := Z.div_mod a b ltac:(lia)).
  assert (Hr := Z.mod_pos_bound a b Hb).
  destruct (Z.ltb_spec (2 * (a mod b)) b); [nia|].
  destruct (Z.ltb_spec b (2 * (a mod b))); [nia|].
  destruct (Z.even (a / b)) eqn:E; [auto|]. intros _.
  replace (a / b + 1)%Z with (Z.succ (a / b)) by lia.
  rewrite Z.even_succ, <- Z.negb_even, E. reflexivity.
Qed.

Lemma round_half_even_nonneg (a b : Z) :
  (0 <= a)%Z -> (0 < b)%Z -> (0 <= PyFloat.round_half_even a b)%Z.
Proof.
  intros Ha Hb. unfold PyFloat.round_half_even.
  assert (Hq : (0 <= a / b)%Z) by (apply Z.div_pos; lia).
  destruct (2 * (a mod b) <? b)%Z; [lia|].
  destruct (b <? 2 * (a mod b))%Z; [lia|]. destruct (Z.even (a / b)); lia.
Qed.

Lemma to_double_nonneg (n : Z) : (0 <= n)%Z -> (0 <= PyFloat.to_double n)%Z.
Proof.
  intros Hn. unfold PyFloat.to_double.
  destruct (Z.leb_spec (Z.log2 n - 52) 0) as [_|Hk]; [exact Hn|].
  assert (Hp : (0 < 2 ^ (Z.log2 n - 52))%Z) by (apply Z.pow_pos_nonneg; lia).
  assert (H := round_half_even_nonneg n _ Hn Hp). nia.
Qed.

(** [:.2f] on [size / (1024 * 1024)], read back: an integer part without
    leading zero, a point and two digits; together they are the number of
    hundredths nearest to the size in mebibytes, the even one of two
    equally near (below [2^53] bytes, where the quotient is exact). *)
Lemma format_mib_2f_read (size : Z) :
  (0 <= size)%Z ->
  exists whole c1 c2 w f1 f2,
    PyFloat.format_mib_2f size = (whole ++ "." ++ String c1 (String c2 ""))%string /\
    read_decimal whole = Some w /\
    (whole = "0" \/ exists c r, whole = String c r /\ c <> "0"%char) /\
    digit_value c1 = Some f1 /\ digit_value c2 = Some f2 /\
    ((size < 2 ^ 53)%Z ->
     (2 * Z.abs (100 * size - (100 * w + 10 * f1 + f2) * MiB) <= MiB)%Z /\
     ((2 * Z.abs (100 * size - (100 * w + 10 * f1 + f2) * MiB) = MiB)%Z ->
      Z.even (100 * w + 10 * f1 + f2) = true)).
Proof.
  intros Hs. unfold PyFloat.format_mib_2f.
  set (hund := PyFloat.hundredths (PyFloat.to_double size)).
  assert (Hh : (0 <= hund)%Z).
  { apply round_half_even_nonneg; [|reflexivity].
    assert (H := to_double_nonneg size Hs). lia. }
  assert (Hm : (0 <= hund mod 100 < 100)%Z) by (apply Z.mod_pos_bound; lia).
  destruct (two_digits_read (hund mod 100) Hm) as (c1 & c2 & Htwo & Hc1 & Hc2).
  exists (PyStr.str_of_N (Z.to_N (hund / 100))), c1, c2,
    (hund / 100)%Z, (hund mod 100 / 10)%Z, ((hund mod 100) mod 10)%Z.
  rewrite Htwo. split; [reflexivity|].
  split; [rewrite read_str_of_N, Z2N.id by (apply Z.div_pos; lia); reflexivity|].
  split; [apply str_of_N_canonical|]. split; [exact Hc1|]. split; [exact Hc2|].
  assert (Hsum : (100 * (hund / 100) + 10 * (hund mod 100 / 10) + (hund mod 100) mod 10
                  = hund)%Z).
  { assert (H1 := Z.div_mod hund 100 ltac:(lia)).
    assert (H2 := Z.div_mod (hund mod 100) 10 ltac:(lia)). lia. }
  rewrite Hsum. intros Hsmall. subst hund.
  rewrite to_double_exact by lia. unfold PyFloat.hundredths.
  change (2 ^ 20)%Z with MiB. replace (100 * size)%Z with (size * 100)%Z by lia.
  split; [apply round_half_even_near; reflexivity|].
  apply round_half_even_tie. reflexivity.
Qed.

(** ** The size warnings *)

(** C1. On a run that reaches the report, the size-warning mapping
    holds an entry for a path exactly when the path was discovered and its
    size on disk is strictly greater than 50 * 1024 * 1024 bytes, and the
    entry holds that size: nothing at exactly 50 MiB, an entry holding the
    size at one byte more.  Each entry is printed as a line
    [Warning: File <path> is <w>.<d1><d2>MB]: [w] a row of digits without
    leading zero and [d1], [d2] two digits, which read back as the number
    of hundredths of a mebibyte nearest to the size (the even one of two
    equally near). *)
Theorem size_warning_threshold
        (os_walk : string -> result (list walk_triple))
        (d : disk) (h : host) (paths : list string) (s' : state)
        (Hfind : find_blend_files os_walk directory = Ok paths)
        (Hrun : run os_walk d h = (Ok tt, s')) :
  (forall p sz,
      dict_get (results_size s') p = Some sz <->
      In p paths /\ (exists b, d p = Some b /\ st_size b = sz) /\ (sz > 50 * 1024 * 1024)%Z) /\
  (forall p b, In p paths -> d p = Some b -> st_size b = (50 * 1024 * 1024)%Z ->
               dict_get (results_size s') p = None) /\
  (forall p b, In p paths -> d p = Some b -> st_size b = (50 * 1024 * 1024 + 1)%Z ->
               dict_get (results_size s') p = Some (50 * 1024 * 1024 + 1)%Z) /\
  (forall p sz,
      In (p, sz) (dict_items (results_size s')) ->
      exists whole c1 c2 w f1 f2,
        In ("Warning: File " ++ p ++ " is " ++ whole ++ "."
              ++ String c1 (String c2 "MB"))%string
           (stdout s') /\
        read_decimal whole = Some w /\
        (whole = "0" \/ exists c r, whole = String c r /\ c <> "0"%char) /\
        digit_value c1 = Some f1 /\ digit_value c2 = Some f2 /\
        ((sz < 2 ^ 53)%Z ->
         (2 * Z.abs (100 * sz - (100 * w + 10 * f1 + f2) * MiB) <= MiB)%Z /\
         ((2 * Z.abs (100 * sz - (100 * w + 10 * f1 + f2) * MiB) = MiB)%Z ->
          Z.even (100 * w + 10 * f1 + f2) = true))).
Proof.
  destruct (finished_state os_walk d h paths s' Hfind Hrun)
    as (Herr & _ & _ & Hsize & Hout & _).
  assert (Hon : forall p, In p paths -> exists b, d p = Some b).
  { intros p Hp. rewrite loop_error_none, Forall_forall in Herr.
    specialize (Herr p Hp). unfold inspect_error in Herr.
    destruct (d p) as [b|]; [eauto | discriminate]. }
  assert (Hget : forall p sz,
             dict_get (results_size s') p = Some sz <->
             In p paths /\ (exists b, d p = Some b /\ st_size b = sz)
             /\ (sz > 50 * 1024 * 1024)%Z).
  { intros p sz. rewrite Hsize, dict_get_keyed.
    destruct (existsb (String.eqb p) (filter (oversized d) (uniq paths))) eqn:E.
    - apply existsb_eqb_in, filter_In in E as [Hp Hbig].
      apply (proj1 (in_uniq p paths)) in Hp.
      destruct (Hon p Hp) as [b Hb]. unfold oversized, size_of in *. rewrite Hb in *.
      apply Z.gtb_lt in Hbig. unfold size_limit in Hbig. split.
      + intros [= <-]. repeat split; eauto; lia.
      + intros (_ & (b' & Hb' & <-) & _). congruence.
    - split; [discriminate|]. intros (Hp & (b & Hb & <-) & Hbig). exfalso.
      assert (Hin : In p (filter (oversized d) (uniq paths))).
      { apply filter_In. split; [now apply in_uniq|].
        unfold oversized, size_of. rewrite Hb. apply Z.gtb_lt. unfold size_limit. lia. }
      apply existsb_eqb_in in Hin. congruence. }
  split; [exact Hget|]. split; [|split].
  - intros p b Hp Hb Hsz. destruct (dict_get (results_size s') p) as [sz|] eqn:G; [|reflexivity].
    apply Hget in G as (_ & (b' & Hb' & <-) & Hbig). exfalso.
    assert (b' = b) by congruence. subst b'. lia.
  - intros p b Hp Hb Hsz. apply Hget. repeat split; eauto; lia.
  - intros p sz Hin.
    assert (Hpos : (0 <= sz)%Z).
    { unfold dict_items in Hin. rewrite Hsize in Hin.
      apply in_map_iff in Hin as (q & E & Hq). unfold keyed in E. injection E as -> <-.
      apply filter_In in Hq as [_ Hq]. unfold oversized, size_limit in Hq.
      apply Z.gtb_lt in Hq. lia. }
    destruct (format_mib_2f_read sz Hpos)
      as (whole & c1 & c2 & w & f1 & f2 & Hfmt & Hw & Hcan & Hf1 & Hf2 & Hnear).
    exists whole, c1, c2, w, f1, f2. split; [|auto 10].
    rewrite Hout. unfold report_lines. right. apply in_app_iff. right.
    apply in_map_iff. exists (p, sz). split; [|exact Hin].
    unfold size_line. cbn [fst snd]. rewrite Hfmt, !string_app_assoc. reflexivity.
Qed.

Lemma size_warning_threshold_witness :
  find_blend_files (os_walk_tree boundary_tree) directory
  = Ok ["./../edge.blend"; "./../over.blend"] /\
  fst (run (os_walk_tree boundary_tree) boundary_disk startup) = Ok tt /\
  dict_get (results_size (snd (run (os_walk_tree boundary_tree) boundary_disk startup)))
           "./../edge.blend" = None /\
  dict_get (results_size (snd (run (os_walk_tree boundary_tree) boundary_disk startup)))
           "./../over.blend" = Some (50 * 1024 * 1024 + 1)%Z /\
  stdout (snd (run (os_walk_tree eighth_tree) eighth_disk startup))
  = ["Final Results:"; "Warning: File ./../eighth.blend is 50.12MB"] /\
  exists whole c1 c2 w f1 f2,
    In ("Warning: File ./../eighth.blend is " ++ whole ++ "."
          ++ String c1 (String c2 "MB"))%string
       (stdout (snd (run (os_walk_tree eighth_tree) eighth_disk startup))) /\
    read_decimal whole = Some w /\
    digit_value c1 = Some f1 /\ digit_value c2 = Some f2 /\
    (100 * w + 10 * f1 + f2 = 5012)%Z.
Proof.
  assert (Hf : find_blend_files (os_walk_tree boundary_tree) directory
               = Ok ["./../edge.blend"; "./../over.blend"]) by (vm_compute; reflexivity).
  assert (Hr : run (os_walk_tree boundary_tree) boundary_disk startup
               = (Ok tt, snd (run (os_walk_tree boundary_tree) boundary_disk startup)))
    by (vm_compute; reflexivity).
  destruct (size_warning_threshold _ _ _ _ _ Hf Hr) as (_ & Hedge & Hover & _).
  split; [exact Hf|]. split; [vm_compute; reflexivity|]. split; [|split; [|split]].
  - apply (Hedge _ (mkBlend (50 * 1024 * 1024) (Some []))); [simpl; auto| |]; reflexivity.
  - apply (Hover _ (mkBlend (50 * 1024 * 1024 + 1) (Some []))); [simpl; auto| |]; reflexivity.
  - vm_compute; reflexivity.
  - assert (Hf8 : find_blend_files (os_walk_tree eighth_tree) directory
                  = Ok ["./../eighth.blend"]) by (vm_compute; reflexivity).
    assert (Hr8 : run (os_walk_tree eighth_tree) eighth_disk startup
                  = (Ok tt, snd (run (os_walk_tree eighth_tree) eighth_disk startup)))
      by (vm_compute; reflexivity).
    destruct (size_warning_threshold _ _ _ _ _ Hf8 Hr8) as (_ & _ & _ & Hline).
    destruct (Hline "./../eighth.blend" (50 * 1024 * 1024 + 131072)%Z)
      as (whole & c1 & c2 & w & f1 & f2 & Hin & Hw & _ & Hf1 & Hf2 & Hnear).
    + vm_compute. left. reflexivity.
    + exists whole, c1, c2, w, f1, f2.
      split; [exact Hin|]. split; [exact Hw|]. split; [exact Hf1|]. split; [exact Hf2|].
      destruct (Hnear eq_refl) as [Hle Htie]. unfold MiB in *.
      assert (Hcases : (100 * w + 10 * f1 + f2 = 5012 \/ 100 * w + 10 * f1 + f2 = 5013)%Z)
        by lia.
      destruct Hcases as [H|H]; [exact H|].
      rewrite H in Htie. discriminate Htie. reflexivity.
Defined.

Lemma filter_none {A : Type} (P : A -> bool) (l : list A) :
  (forall x, In x l -> P x = false) -> filter P l = [].
Proof.
  induction l as [|x l IH]; simpl; intros H; [reflexivity|].
  rewrite H by auto. auto.
Qed.

(** C3. On a run that reaches the report, the output is the header, then
    for each entry of the library mapping in its order the lines of that
    entry, then for each entry of the size mapping in its order its
    warning; the keys of both mappings stand in discovery order (each
    path at its first discovery).  A file with at least one library
    reference contributes its path line followed by exactly its reference
    paths, indented, in the order the host lists them. *)
Theorem report_in_discovery_order
        (os_walk : string -> result (list walk_triple))
        (d : disk) (h : host) (paths : list string) (s' : state)
        (Hfind : find_blend_files os_walk directory = Ok paths)
        (Hrun : run os_walk d h = (Ok tt, s')) :
  stdout s'
  = "Final Results:" :: flat_map libs_lines (dict_items (results_libs s'))
                     ++ map size_line (dict_items (results_size s')) /\
  dict_keys (results_libs s') = uniq paths /\
  dict_keys (results_size s') = filter (oversized d) (uniq paths) /\
  (NoDup paths ->
   dict_keys (results_libs s') = paths /\
   dict_keys (results_size s') = filter (oversized d) paths) /\
  (forall p sz lib libs,
      In p paths ->
      d p = Some (mkBlend sz (Some (lib :: libs))) ->
      exists items_before items_after,
        dict_items (results_libs s')
        = items_before ++ (p, map filepath (lib :: libs)) :: items_after /\
        stdout s'
        = ("Final Results:" :: flat_map libs_lines items_before)
          ++ (("Blend File: " ++ p)%string
                :: map (fun l => ("    - " ++ filepath l)%string) (lib :: libs))
          ++ flat_map libs_lines items_after
          ++ map size_line (dict_items (results_size s'))).
Proof.
  destruct (finished_state os_walk d h paths s' Hfind Hrun)
    as (_ & _ & Hlibs & Hsize & Hout & _).
  split; [exact Hout|].
  split; [rewrite Hlibs; apply dict_keys_keyed|].
  split; [rewrite Hsize; apply dict_keys_keyed|].
  split.
  - intros Hnd. rewrite Hlibs, Hsize, !dict_keys_keyed, uniq_NoDup by exact Hnd. auto.
  - intros p sz lib libs Hp Hd.
    apply in_uniq, in_split in Hp as (l1 & l2 & Hsplit).
    exists (map (keyed (libs_of d)) l1), (map (keyed (libs_of d)) l2).
    assert (Hitems : dict_items (results_libs s')
                     = map (keyed (libs_of d)) l1
                       ++ (p, map filepath (lib :: libs)) :: map (keyed (libs_of d)) l2).
    { unfold dict_items. rewrite Hlibs, Hsplit, map_app. cbn [map]. do 2 f_equal.
      unfold keyed, libs_of. now rewrite Hd. }
    split; [exact Hitems|].
    rewrite Hout. unfold report_lines. rewrite Hitems, flat_map_app.
    cbn [flat_map]. unfold libs_lines at 2. cbn [fst snd map].
    rewrite map_map, <- !app_assoc. reflexivity.
Qed.

Lemma report_in_discovery_order_witness :
  find_blend_files (os_walk_tree demo_tree) directory
  = Ok ["./../scene.blend"; "./../props/rock.blend"] /\
  fst (run (os_walk_tree demo_tree) demo_disk startup) = Ok tt /\
  stdout (snd (run (os_walk_tree demo_tree) demo_disk startup))
  = [ "Final Results:";
      "Blend File: ./../scene.blend";
      "    - //props/rock.blend";
      "    - //lib/water.blend";
      "Warning: File ./../props/rock.blend is 60.00MB" ] /\
  dict_keys (results_libs (snd (run (os_walk_tree demo_tree) demo_disk startup)))
  = uniq ["./../scene.blend"; "./../props/rock.blend"].
Proof.
  assert (Hf : find_blend_files (os_walk_tree demo_tree) directory
               = Ok ["./../scene.blend"; "./../props/rock.blend"])
    by (vm_compute; reflexivity).
  assert (Hr : run (os_walk_tree demo_tree) demo_disk startup
               = (Ok tt, snd (run (os_walk_tree demo_tree) demo_disk startup)))
    by (vm_compute; reflexivity).
  destruct (report_in_discovery_order _ _ _ _ _ Hf Hr) as (_ & Hkeys & _).
  split; [exact Hf|]. split; [vm_compute; reflexivity|].
  split; [vm_compute; reflexivity | exact Hkeys].
Defined.

(** C4, as it is worded: a file without library references gets no line
    of the report at all.  A file of 60 MiB without references has its
    empty entry in the library mapping and still gets its warning line. *)
Lemma unlinked_oversized_file_gets_a_line :
  let s' := snd (run (os_walk_tree demo_tree) demo_disk startup) in
  let p := "./../props/rock.blend" in
  find_blend_files (os_walk_tree demo_tree) directory = Ok ["./../scene.blend"; p] /\
  fst (run (os_walk_tree demo_tree) demo_disk startup) = Ok tt /\
  demo_disk p = Some (mkBlend (60 * MiB) (Some [])) /\
  dict_get (results_libs s') p = Some [] /\
  stdout s'
  = [ "Final Results:";
      "Blend File: ./../scene.blend";
      "    - //props/rock.blend";
      "    - //lib/water.blend";
      "Warning: File ./../props/rock.blend is 60.00MB" ] /\
  In "Warning: File ./../props/rock.blend is 60.00MB" (stdout s').
Proof.
  cbv zeta. repeat split; try (vm_compute; reflexivity).
  vm_compute. auto 10.
Qed.

Lemma blend_file_line_inj (p q : string) :
  ("Blend File: " ++ q)%string = ("Blend File: " ++ p)%string -> q = p.
Proof. apply string_app_inj. Qed.

(** No line of the report is the path line of a file whose entry in the
    library mapping is empty. *)
Lemma no_path_line (d : disk) (ks : list string) (sizes : dict Z) (p : string) :
  libs_of d p = [] ->
  ~ In ("Blend File: " ++ p)%string (report_lines (map (keyed (libs_of d)) ks) sizes).
Proof.
  intros Hl Hin. unfold report_lines, dict_items in Hin.
  destruct Hin as [H|Hin]; [discriminate H|].
  apply in_app_iff in Hin as [Hin|Hin].
  - apply in_flat_map in Hin as (item & Hitem & Hin).
    apply in_map_iff in Hitem as (q & <- & _).
    unfold keyed, libs_lines in Hin. cbn [fst snd] in Hin.
    destruct (libs_of d q) as [|lib libs] eqn:Hq; [destruct Hin|].
    destruct Hin as [H|Hin].
    + apply blend_file_line_inj in H. subst q. congruence.
    + apply in_map_iff in Hin as (l & H & _). discriminate H.
  - apply in_map_iff in Hin as (item & H & _). discriminate H.
Qed.

(** C4, amended.  On a run that reaches the report, a discovered file
    without library references has the empty sequence under its key in
    the library mapping, and the library section of the report prints no
    line for it: its path line is no line of the output, which runs from
    the lines of the entries before it straight to those of the entries
    after it.  Its size warning is still printed when its size is above
    the limit, and it has no entry in the size mapping otherwise. *)
Theorem unlinked_file_report
        (os_walk : string -> result (list walk_triple))
        (d : disk) (h : host) (paths : list string) (s' : state)
        (p : string) (sz : Z)
        (Hfind : find_blend_files os_walk directory = Ok paths)
        (Hrun : run os_walk d h = (Ok tt, s'))
        (Hin : In p paths)
        (Hzero : d p = Some (mkBlend sz (Some []))) :
  dict_get (results_libs s') p = Some [] /\
  ~ In ("Blend File: " ++ p)%string (stdout s') /\
  (exists items_before items_after,
      dict_items (results_libs s') = items_before ++ (p, []) :: items_after /\
      stdout s'
      = ("Final Results:" :: flat_map libs_lines items_before)
        ++ flat_map libs_lines items_after
        ++ map size_line (dict_items (results_size s'))) /\
  ((sz > 50 * 1024 * 1024)%Z ->
   exists figure,
     In ("Warning: File " ++ p ++ " is " ++ figure ++ "MB")%string (stdout s')) /\
  ((sz <= 50 * 1024 * 1024)%Z -> dict_get (results_size s') p = None).
Proof.
  destruct (finished_state os_walk d h paths s' Hfind Hrun)
    as (_ & _ & Hlibs & Hsize & Hout & _).
  assert (Hu : In p (uniq paths)) by now apply in_uniq.
  assert (Hl : libs_of d p = []) by (unfold libs_of; now rewrite Hzero).
  assert (Hs : size_of d p = sz) by (unfold size_of; now rewrite Hzero).
  split; [|split; [|split; [|split]]].
  - rewrite Hlibs, dict_get_keyed.
    apply existsb_eqb_in in Hu. now rewrite Hu, Hl.
  - rewrite Hout, Hlibs. now apply no_path_line.
  - apply in_split in Hu as (l1 & l2 & Hsplit).
    exists (map (keyed (libs_of d)) l1), (map (keyed (libs_of d)) l2).
    assert (Hitems : dict_items (results_libs s')
                     = map (keyed (libs_of d)) l1 ++ (p, []) :: map (keyed (libs_of d)) l2).
    { unfold dict_items. rewrite Hlibs, Hsplit, map_app. cbn [map]. do 2 f_equal.
      unfold keyed. now rewrite Hl. }
    split; [exact Hitems|].
    rewrite Hout. unfold report_lines. rewrite Hitems, flat_map_app.
    cbn [flat_map]. unfold libs_lines at 2. cbn [fst snd app].
    now rewrite <- !app_assoc.
  - intros Hbig. exists (PyFloat.format_mib_2f sz).
    rewrite Hout. unfold report_lines. right. apply in_app_iff. right.
    apply in_map_iff. exists (p, sz). split; [reflexivity|].
    unfold dict_items. rewrite Hsize. apply in_map_iff. exists p.
    split; [unfold keyed; now rewrite Hs|]. apply filter_In. split; [exact Hu|].
    unfold oversized. rewrite Hs. apply Z.gtb_lt. unfold size_limit. lia.
  - intros Hsmall. rewrite Hsize, dict_get_keyed.
    destruct (existsb (String.eqb p) (filter (oversized d) (uniq paths))) eqn:E;
      [|reflexivity].
    apply existsb_eqb_in, filter_In in E as [_ E]. unfold oversized in E.
    rewrite Hs in E. apply Z.gtb_lt in E. unfold size_limit in E. lia.
Qed.

Lemma unlinked_file_report_witness :
  find_blend_files (os_walk_tree demo_tree) directory
  = Ok ["./../scene.blend"; "./../props/rock.blend"] /\
  fst (run (os_walk_tree demo_tree) demo_disk startup) = Ok tt /\
  dict_get (results_libs (snd (run (os_walk_tree demo_tree) demo_disk startup)))
           "./../props/rock.blend" = Some [] /\
  ~ In "Blend File: ./../props/rock.blend"
       (stdout (snd (run (os_walk_tree demo_tree) demo_disk startup))) /\
  exists figure,
    In ("Warning: File ./../props/rock.blend is " ++ figure ++ "MB")%string
       (stdout (snd (run (os_walk_tree demo_tree) demo_disk startup))).
Proof.
  assert (Hf : find_blend_files (os_walk_tree demo_tree) directory
               = Ok ["./../scene.blend"; "./../props/rock.blend"])
    by (vm_compute; reflexivity).
  assert (Hr : run (os_walk_tree demo_tree) demo_disk startup
               = (Ok tt, snd (run (os_walk_tree demo_tree) demo_disk startup)))
    by (vm_compute; reflexivity).
  assert (Hin : In "./../props/rock.blend" ["./../scene.blend"; "./../props/rock.blend"])
    by (right; left; reflexivity).
  assert (Hz : demo_disk "./../props/rock.blend" = Some (mkBlend (60 * MiB) (Some [])))
    by reflexivity.
  destruct (unlinked_file_report _ _ _ _ _ _ _ Hf Hr Hin Hz)
    as (Hget & Hno & _ & Hwarn & _).
  split; [exact Hf|]. split; [vm_compute; reflexivity|].
  split; [exact Hget|]. split; [exact Hno|]. apply Hwarn. reflexivity.
Defined.

(** ** Runs that abort, and what every run leaves alone *)

Lemma loop_error_first (d : disk) (pre post : list string) (p : string) (e : exn) :
  Forall (fun q => inspect_error d q = None) pre ->
  inspect_error d p = Some e ->
  loop_error d (pre ++ p :: post) = Some e.
Proof.
  induction 1 as [|q pre Hq Hpre IH]; intros He; cbn [app loop_error].
  - now rewrite He.
  - rewrite Hq. now apply IH.
Qed.

Lemma loop_app (pre rest : list string) (s : state) :
  loop_error (st_disk s) pre = None ->
  for_each (pre ++ rest) inspect s = for_each rest inspect (loop_state pre s).
Proof.
  revert s; induction pre as [|q pre IH]; intros s H; [reflexivity|].
  cbn [loop_error] in H. destruct (inspect_error (st_disk s) q) eqn:E; [discriminate|].
  cbn [app]. rewrite for_each_cons, inspect_loadable by exact E.
  rewrite loop_state_cons. apply IH. unfold inspected; cbn -[size_limit]. exact H.
Qed.

Lemma run_quiet (os_walk : string -> result (list walk_triple)) (d : disk) (h : host) :
  let s' := snd (run os_walk d h) in
  st_disk s' = d /\
  (fst (run os_walk d h) <> Ok tt -> stdout s' = []) /\
  exists calls,
    trace s' = (EWalk directory, h) :: calls /\
    Forall (fun c => writes_disk (fst c) = false) calls /\
    (length h <= 1 ->
     length (st_host s') <= 1 /\ Forall (fun c => length (snd c) <= 1) calls).
Proof.
  cbv zeta. destruct (find_blend_files os_walk directory) as [paths|e] eqn:Hf.
  - rewrite (run_unfold os_walk d h paths Hf).
    destruct (loop_quiet paths (started d h)) as (D & O & calls & T & W & Hh).
    destruct (for_each paths inspect (started d h)) as [[[]|e] s1]; cbn [fst snd] in *.
    + rewrite report_eq. cbn [fst snd printed st_disk st_host trace].
      split; [exact D|]. split; [intros []; reflexivity|].
      exists calls. auto.
    + split; [exact D|]. split; [intros _; exact O|]. exists calls. auto.
  - unfold find_blend_files in Hf. destruct (os_walk directory) eqn:Hw; [discriminate|].
    injection Hf as ->. rewrite (run_walk_raises os_walk d h e Hw). cbn.
    repeat split; auto. exists []. repeat split; auto.
Qed.

Lemma loop_events_prefix (paths : list string) (s : state) :
  exists rest,
    map fst (trace s) ++ flat_map inspect_calls paths
    = map fst (trace (snd (for_each paths inspect s))) ++ rest.
Proof.
  revert s; induction paths as [|p paths IH]; intros s.
  - exists []. reflexivity.
  - rewrite for_each_cons. cbn [flat_map].
    destruct (st_disk s p) as [[sz [libs|]]|] eqn:H.
    + rewrite inspect_loadable by (unfold inspect_error; now rewrite H).
      destruct (IH (inspected p s)) as [rest Hrest]. exists rest.
      rewrite <- Hrest. unfold inspected; cbn -[size_limit].
      now rewrite map_app, <- app_assoc.
    + destruct (inspect_unreadable p s sz H) as (s' & E & _ & _ & _ & _ & _ & T).
      rewrite E. cbn [snd]. rewrite T, map_app. cbn [map fst].
      exists (EDataLibraries :: flat_map inspect_calls paths).
      now rewrite <- app_assoc.
    + rewrite inspect_missing by exact H. unfold log; cbn [snd trace].
      rewrite map_app. cbn [map fst].
      exists (EOpenMainfile p :: EDataLibraries :: flat_map inspect_calls paths).
      now rewrite <- app_assoc.
Qed.

(** C5, as it is worded: an error of the directory traversal aborts the
    run.  When the top directory cannot be scanned, or a directory below
    it cannot, [os.walk] swallows the error and the run finishes. *)
Lemma traversal_errors_do_not_abort :
  fst (run (os_walk_tree None) empty_disk startup) = Ok tt /\
  stdout (snd (run (os_walk_tree None) empty_disk startup)) = ["Final Results:"] /\
  fst (run (os_walk_tree hidden_tree) small_disk startup) = Ok tt /\
  stdout (snd (run (os_walk_tree hidden_tree) small_disk startup)) = ["Final Results:"].
Proof. repeat split; vm_compute; reflexivity. Qed.

(** C5, amended.  The script catches nothing itself: when [os.walk]
    raises, the run ends with that exception; when the size cannot be read
    or the host cannot load a discovered file, the run ends with the
    exception of the first such file.  Errors of scanning a directory are
    not among these: over a directory tree the walk never raises, and the
    run finishes whenever the files discovered can be inspected.  A file
    that can be measured and loaded is inspected without exception on
    either side of the size comparison, which decides only whether the
    size mapping gets an entry; the other test of the loop, on the number
    of libraries, records the same list on both sides. *)
Theorem no_error_handling
        (os_walk : string -> result (list walk_triple)) (d : disk) (h : host) :
  (forall e, os_walk directory = Raise e ->
             exists s', run os_walk d h = (Raise e, s')) /\
  (forall paths pre p post,
      find_blend_files os_walk directory = Ok paths ->
      paths = pre ++ p :: post ->
      Forall (fun q => inspect_error d q = None) pre ->
      (d p = None -> exists s', run os_walk d h = (Raise (OSError p), s')) /\
      (forall sz, d p = Some (mkBlend sz None) ->
                  exists s', run os_walk d h = (Raise (RuntimeError p), s'))) /\
  (forall paths p,
      find_blend_files os_walk directory = Ok paths ->
      In p paths ->
      (d p = None \/ exists sz, d p = Some (mkBlend sz None)) ->
      exists e s', run os_walk d h = (Raise e, s')) /\
  (forall p s sz libs,
      st_disk s p = Some (mkBlend sz (Some libs)) ->
      exists s',
        inspect p s = (Ok tt, s') /\
        results_libs s' = dict_set (results_libs s) p (map filepath libs) /\
        results_size s'
        = (if (sz >? 50 * 1024 * 1024)%Z
           then dict_set (results_size s) p sz else results_size s)) /\
  (forall p s sz libs,
      st_disk s p = Some (mkBlend sz (Some libs)) ->
      results_libs (snd (inspect p s))
      = dict_set (results_libs s) p
                 (match libs with
                  | [] => []
                  | _ :: _ => map filepath libs
                  end)) /\
  (forall root : tree,
      exists paths,
        find_blend_files (os_walk_tree root) directory = Ok paths /\
        (Forall (fun q => exists sz libs, d q = Some (mkBlend sz (Some libs))) paths ->
         fst (run (os_walk_tree root) d h) = Ok tt)).
Proof.
  split; [|split; [|split; [|split; [|split]]]].
  - intros e He. rewrite (run_walk_raises os_walk d h e He). eauto.
  - intros paths pre p post Hf -> Hpre. split.
    + intros Hd.
      assert (E : loop_error d (pre ++ p :: post) = Some (OSError p)).
      { apply loop_error_first; [exact Hpre|]. unfold inspect_error. now rewrite Hd. }
      destruct (run_aborted os_walk d h _ _ Hf E) as (s' & Hr & _). eauto.
    + intros sz Hd.
      assert (E : loop_error d (pre ++ p :: post) = Some (RuntimeError p)).
      { apply loop_error_first; [exact Hpre|]. unfold inspect_error. now rewrite Hd. }
      destruct (run_aborted os_walk d h _ _ Hf E) as (s' & Hr & _). eauto.
  - intros paths p Hf Hin Hbad.
    assert (He : exists e, inspect_error d p = Some e).
    { unfold inspect_error. destruct Hbad as [->|[sz ->]]; eauto. }
    destruct He as [e He].
    destruct (loop_error_in d paths p e Hin He) as [e' E].
    destruct (run_aborted os_walk d h _ _ Hf E) as (s' & Hr & _). eauto.
  - intros p s sz libs Hd. exists (inspected p s).
    split; [apply inspect_loadable; unfold inspect_error; now rewrite Hd|].
    unfold inspected, libs_of, size_of. cbn -[size_limit]. rewrite Hd. auto.
  - intros p s sz libs Hd.
    rewrite inspect_loadable by (unfold inspect_error; now rewrite Hd).
    unfold inspected, libs_of. cbn [snd results_libs]. rewrite Hd.
    destruct libs; reflexivity.
  - intros root. destruct (os_walk_tree_total root directory) as [triples Ht].
    exists (collect_blend triples).
    assert (Hf : find_blend_files (os_walk_tree root) directory
                 = Ok (collect_blend triples)).
    { unfold find_blend_files. now rewrite Ht. }
    split; [exact Hf|]. intros Hall.
    assert (E : loop_error d (collect_blend triples) = None).
    { apply loop_error_none. eapply Forall_impl; [|exact Hall].
      intros q (sz & libs & Hq). unfold inspect_error. now rewrite Hq. }
    now rewrite (run_finished (os_walk_tree root) d h _ Hf E).
Qed.

Lemma no_error_handling_witness :
  (exists s', run broken_walk demo_disk startup = (Raise (OtherError "interrupted"), s')) /\
  (exists s', run (os_walk_tree demo_tree) empty_disk startup
              = (Raise (OSError "./../scene.blend"), s')) /\
  (exists s', run (os_walk_tree corrupt_tree) corrupt_disk startup
              = (Raise (RuntimeError "./../broken.blend"), s')) /\
  fst (run (os_walk_tree hidden_tree) small_disk startup) = Ok tt.
Proof.
  split; [|split; [|split]].
  - apply (proj1 (no_error_handling broken_walk demo_disk startup)). reflexivity.
  - apply (proj1 (proj2 (no_error_handling (os_walk_tree demo_tree) empty_disk startup))
             ["./../scene.blend"; "./../props/rock.blend"] []
             "./../scene.blend" ["./../props/rock.blend"]);
      [vm_compute; reflexivity | reflexivity | constructor | reflexivity].
  - apply (proj1 (proj2 (no_error_handling (os_walk_tree corrupt_tree) corrupt_disk startup))
             ["./../a.blend"; "./../broken.blend"; "./../z.blend"] ["./../a.blend"]
             "./../broken.blend" ["./../z.blend"]) with (sz := (60 * MiB)%Z);
      [vm_compute; reflexivity | reflexivity | | reflexivity].
    constructor; [reflexivity | constructor].
  - destruct (proj2 (proj2 (proj2 (proj2 (proj2
               (no_error_handling broken_walk small_disk startup))))) hidden_tree)
      as (paths & _ & Hfin).
    apply Hfin. apply Forall_forall. intros q _. exists 1024%Z, []. reflexivity.
Defined.

Lemma run_host_independent
      (os_walk : string -> result (list walk_triple)) (d : disk) (h h' : host) :
  fst (run os_walk d h) = fst (run os_walk d h') /\
  stdout (snd (run os_walk d h)) = stdout (snd (run os_walk d h')).
Proof.
  destruct (find_blend_files os_walk directory) as [paths|e] eqn:Hf.
  - destruct (loop_error d paths) as [e|] eqn:E.
    + destruct (run_aborted os_walk d h paths e Hf E) as (s1 & -> & _ & O1 & _).
      destruct (run_aborted os_walk d h' paths e Hf E) as (s2 & -> & _ & O2 & _).
      cbn [fst snd]. split; [reflexivity | rewrite O1, O2; reflexivity].
    + rewrite (run_finished os_walk d h paths Hf E), (run_finished os_walk d h' paths Hf E).
      cbn [fst snd printed stdout].
      now rewrite !loop_state_stdout, !finished_libs, !finished_size.
  - unfold find_blend_files in Hf. destruct (os_walk directory) eqn:Hw; [discriminate|].
    injection Hf as ->.
    rewrite (run_walk_raises os_walk d h e Hw), (run_walk_raises os_walk d h' e Hw).
    split; reflexivity.
Qed.

(** C6. A second run, started on the disk and the host the first run
    left, ends the same way and prints the same report, character for
    character: the report depends only on the walk and on the disk, and
    the disk is left as it was found. *)
Theorem rerun_prints_same_report
        (os_walk : string -> result (list walk_triple)) (d : disk) (h : host) :
  let first := run os_walk d h in
  let second := run os_walk (st_disk (snd first)) (st_host (snd first)) in
  st_disk (snd first) = d /\
  fst second = fst first /\
  stdout (snd second) = stdout (snd first) /\
  st_disk (snd second) = d.
Proof.
  cbv zeta. destruct (run_quiet os_walk d h) as (D & _). rewrite D.
  destruct (run_quiet os_walk d (st_host (snd (run os_walk d h)))) as (D' & _).
  destruct (run_host_independent os_walk d (st_host (snd (run os_walk d h))) h) as [R O].
  auto.
Qed.

(** The call kept in a comment does write the disk. *)
Lemma save_as_mainfile_writes (path : string) (compress : bool) (written : Z) (s : state) :
  st_disk (snd (save_as_mainfile path compress written s)) path
  = Some (mkBlend written (Some (active_libraries (st_host s)))) /\
  In (ESaveAsMainfile path compress) (map fst (trace (snd (save_as_mainfile path compress written s)))).
Proof.
  unfold save_as_mainfile, disk_write, log, with_disk; cbn. rewrite String.eqb_refl.
  split; [reflexivity|]. rewrite map_app. apply in_app_iff. right. now left.
Qed.

(** C7. Whatever the run, finished or aborted, the disk at its end is the
    disk at its start, and none of the calls made writes the disk: the
    call that saves the document is never made.  What changes is the
    host's open document and the standard output. *)
Theorem no_file_modified
        (os_walk : string -> result (list walk_triple)) (d : disk) (h : host) :
  let s' := snd (run os_walk d h) in
  st_disk s' = d /\
  Forall (fun c => writes_disk (fst c) = false) (trace s') /\
  (forall path compress, ~ In (ESaveAsMainfile path compress) (map fst (trace s'))).
Proof.
  cbv zeta. destruct (run_quiet os_walk d h) as (D & _ & calls & T & W & _).
  assert (Hall : Forall (fun c => writes_disk (fst c) = false)
                        (trace (snd (run os_walk d h)))).
  { rewrite T. constructor; [reflexivity | exact W]. }
  split; [exact D|]. split; [exact Hall|].
  intros path compress Hin. apply in_map_iff in Hin as (c & Hc & Hin).
  rewrite Forall_forall in Hall. specialize (Hall c Hin). now rewrite Hc in Hall.
Qed.

(** C8. From a host with at most one open document, the host holds at
    most one document after every call of the run and at its end.  A
    load that succeeds leaves exactly the document read, whatever was
    open before.  The calls made follow, as far as the run goes, the
    schedule size, load, libraries of the first path, then of the second,
    and so on: no load begins before the libraries of the previous file
    were read; and each file's libraries are those of its own document. *)
Theorem one_document_at_a_time
        (os_walk : string -> result (list walk_triple)) (d : disk) (h : host)
        (Hh : length h <= 1) :
  let s' := snd (run os_walk d h) in
  Forall (fun c => length (snd c) <= 1) (trace s') /\
  length (st_host s') <= 1 /\
  (forall p s sz libs,
      st_disk s p = Some (mkBlend sz (Some libs)) ->
      fst (open_mainfile p s) = Ok tt /\
      st_host (snd (open_mainfile p s)) = [mkDocument p libs]) /\
  (forall paths,
      find_blend_files os_walk directory = Ok paths ->
      (exists rest,
          EWalk directory :: flat_map inspect_calls paths = map fst (trace s') ++ rest) /\
      (fst (run os_walk d h) = Ok tt ->
       map fst (trace s') = EWalk directory :: flat_map inspect_calls paths /\
       results_libs s' = map (keyed (libs_of d)) (uniq paths))).
Proof.
  cbv zeta. destruct (run_quiet os_walk d h) as (_ & _ & calls & T & _ & Hone).
  destruct (Hone Hh) as [Hhost Hcalls].
  split; [rewrite T; constructor; [exact Hh | exact Hcalls]|].
  split; [exact Hhost|]. split.
  - intros p s sz libs Hd. unfold open_mainfile. rewrite Hd. split; reflexivity.
  - intros paths Hf. split.
    + rewrite (run_unfold os_walk d h paths Hf).
      destruct (loop_events_prefix paths (started d h)) as [rest Hrest].
      exists rest. cbn [started trace map fst app] in Hrest.
      destruct (for_each paths inspect (started d h)) as [[[]|e] s1]; cbn [snd] in *.
      * rewrite report_eq. exact Hrest.
      * exact Hrest.
    + intros Hok.
      assert (Hr : run os_walk d h = (Ok tt, snd (run os_walk d h))).
      { destruct (run os_walk d h) as [[[]|e] s1]; cbn [fst snd] in *;
          [reflexivity | discriminate]. }
      destruct (finished_state os_walk d h paths _ Hf Hr) as (_ & _ & Hl & _ & _ & Hev).
      auto.
Qed.

Lemma one_document_at_a_time_witness :
  length startup <= 1 /\
  length (st_host (snd (run (os_walk_tree demo_tree) demo_disk startup))) <= 1 /\
  Forall (fun c => length (snd c) <= 1)
         (trace (snd (run (os_walk_tree demo_tree) demo_disk startup))).
Proof.
  assert (Hh : length startup <= 1) by (apply le_n).
  destruct (one_document_at_a_time (os_walk_tree demo_tree) demo_disk startup Hh)
    as (Hcalls & Hhost & _).
  split; [exact Hh|]. split; [exact Hhost | exact Hcalls].
Defined.

Lemma dict_get_set_same {V : Type} (dct : dict V) (k : string) (v : V) :
  dict_get (dict_set dct k v) k = Some v.
Proof.
  induction dct as [|[k' v'] dct IH]; cbn [dict_set dict_get].
  - now rewrite String.eqb_refl.
  - destruct (String.eqb k' k) eqn:E; cbn [dict_get]; rewrite E; [reflexivity | exact IH].
Qed.

(** C9. When the host cannot load a discovered file, the run aborts and
    nothing was printed, not even the header.  At the moment the load of
    the first such file raises, the library mapping already holds the
    entries of the files inspected before it and the size mapping already
    holds the failing file's size if it is above the limit; none of it is
    printed. *)
Theorem load_failure_prints_nothing
        (os_walk : string -> result (list walk_triple))
        (d : disk) (h : host) (paths : list string) (p : string) (sz : Z)
        (Hfind : find_blend_files os_walk directory = Ok paths)
        (Hin : In p paths)
        (Hbad : d p = Some (mkBlend sz None)) :
  (exists e s', run os_walk d h = (Raise e, s') /\ stdout s' = []) /\
  (forall pre post,
      paths = pre ++ p :: post ->
      Forall (fun q => inspect_error d q = None) pre ->
      exists s',
        run os_walk d h = (Raise (RuntimeError p), s') /\
        stdout s' = [] /\
        results_libs s' = map (keyed (libs_of d)) (uniq pre) /\
        ((sz > 50 * 1024 * 1024)%Z -> dict_get (results_size s') p = Some sz)).
Proof.
  split.
  - assert (He : inspect_error d p = Some (RuntimeError p)).
    { unfold inspect_error. now rewrite Hbad. }
    destruct (loop_error_in d paths p _ Hin He) as [e E].
    destruct (run_aborted os_walk d h paths e Hfind E) as (s' & Hr & _ & O & _).
    exists e, s'. split; [exact Hr | exact O].
  - intros pre post -> Hpre.
    rewrite (run_unfold os_walk d h _ Hfind).
    rewrite loop_app by (cbn [started st_disk]; now apply loop_error_none).
    rewrite for_each_cons.
    assert (Hd : st_disk (loop_state pre (started d h)) p = Some (mkBlend sz None)).
    { rewrite loop_state_disk. exact Hbad. }
    destruct (inspect_unreadable p _ sz Hd) as (s' & E & _ & _ & L & S & O & _).
    rewrite E. exists s'. split; [reflexivity|]. split; [|split].
    + rewrite O. apply loop_state_stdout.
    + rewrite L. apply finished_libs.
    + intros Hbig. rewrite S.
      assert (Hgt : (sz >? size_limit)%Z = true) by (apply Z.gtb_lt; unfold size_limit; lia).
      rewrite Hgt. apply dict_get_set_same.
Qed.

Lemma load_failure_prints_nothing_witness :
  find_blend_files (os_walk_tree corrupt_tree) directory
  = Ok ["./../a.blend"; "./../broken.blend"; "./../z.blend"] /\
  corrupt_disk "./../broken.blend" = Some (mkBlend (60 * MiB) None) /\
  exists s',
    run (os_walk_tree corrupt_tree) corrupt_disk startup
    = (Raise (RuntimeError "./../broken.blend"), s') /\
    stdout s' = [] /\
    results_libs s' = map (keyed (libs_of corrupt_disk)) (uniq ["./../a.blend"]) /\
    dict_get (results_size s') "./../broken.blend" = Some (60 * MiB)%Z.
Proof.
  assert (Hf : find_blend_files (os_walk_tree corrupt_tree) directory
               = Ok ["./../a.blend"; "./../broken.blend"; "./../z.blend"])
    by (vm_compute; reflexivity).
  assert (Hin : In "./../broken.blend"
                   ["./../a.blend"; "./../broken.blend"; "./../z.blend"])
    by (right; left; reflexivity).
  assert (Hbad : corrupt_disk "./../broken.blend" = Some (mkBlend (60 * MiB) None))
    by reflexivity.
  split; [exact Hf|]. split; [exact Hbad|].
  destruct (proj2 (load_failure_prints_nothing
                     (os_walk_tree corrupt_tree) corrupt_disk startup _ _ _ Hf Hin Hbad)
                  ["./../a.blend"] ["./../z.blend"] eq_refl)
    as (s' & Hr & Ho & Hl & Hs).
  - constructor; [reflexivity | constructor].
  - exists s'. split; [exact Hr|]. split; [exact Ho|]. split; [exact Hl|].
    apply Hs. reflexivity.
Defined.

(** C10. After a run that reaches the report, every key of the size
    mapping is a key of the library mapping, and the library mapping has
    one entry, and only one, for each discovered path and no other. *)
Theorem size_keys_within_libs_keys
        (os_walk : string -> result (list walk_triple))
        (d : disk) (h : host) (paths : list string) (s' : state)
        (Hfind : find_blend_files os_walk directory = Ok paths)
        (Hrun : run os_walk d h = (Ok tt, s')) :
  incl (dict_keys (results_size s')) (dict_keys (results_libs s')) /\
  (forall p, In p (dict_keys (results_libs s')) <-> In p paths) /\
  NoDup (dict_keys (results_libs s')) /\
  NoDup (dict_keys (results_size s')) /\
  (forall p, In p paths -> exists libs, dict_get (results_libs s') p = Some libs).
Proof.
  destruct (finished_state os_walk d h paths s' Hfind Hrun)
    as (_ & _ & Hlibs & Hsize & _ & _).
  rewrite Hlibs, Hsize, !dict_keys_keyed.
  split; [intros p Hp; now apply filter_In in Hp|].
  split; [intros p; apply in_uniq|].
  split; [apply NoDup_uniq|].
  split; [apply NoDup_filter, NoDup_uniq|].
  intros p Hp. rewrite dict_get_keyed.
  apply in_uniq, existsb_eqb_in in Hp. rewrite Hp. eauto.
Qed.

Lemma size_keys_within_libs_keys_witness :
  find_blend_files (os_walk_tree demo_tree) directory
  = Ok ["./../scene.blend"; "./../props/rock.blend"] /\
  fst (run (os_walk_tree demo_tree) demo_disk startup) = Ok tt /\
  incl (dict_keys (results_size (snd (run (os_walk_tree demo_tree) demo_disk startup))))
       (dict_keys (results_libs (snd (run (os_walk_tree demo_tree) demo_disk startup)))) /\
  NoDup (dict_keys (results_libs (snd (run (os_walk_tree demo_tree) demo_disk startup)))).
Proof.
  assert (Hf : find_blend_files (os_walk_tree demo_tree) directory
               = Ok ["./../scene.blend"; "./../props/rock.blend"])
    by (vm_compute; reflexivity).
  assert (Hr : run (os_walk_tree demo_tree) demo_disk startup
               = (Ok tt, snd (run (os_walk_tree demo_tree) demo_disk startup)))
    by (vm_compute; reflexivity).
  destruct (size_keys_within_libs_keys _ _ _ _ _ Hf Hr) as (Hincl & _ & Hnd & _).
  split; [exact Hf|]. split; [vm_compute; reflexivity|].
  split; [exact Hincl | exact Hnd].
Defined.

(** * Further properties *)

(** ** The name test *)

Lemma lower_idempotent (s : string) : PyStr.lower (PyStr.lower s) = PyStr.lower s.
Proof.
  induction s as [|c r IH]; [reflexivity|]. cbn [PyStr.lower]. rewrite IH. f_equal.
  unfold PyStr.ascii_lower.
  destruct ((65 <=? nat_of_ascii c)%nat && (nat_of_ascii c <=? 90)%nat) eqn:E.
  - apply andb_true_iff in E as [E1 E2]. apply Nat.leb_le in E1, E2.
    rewrite nat_ascii_embedding by lia.
    destruct (Nat.leb_spec (nat_of_ascii c + 32) 90); [lia|].
    now rewrite andb_false_r.
  - now rewrite E.
Qed.

(** X1. A name passes the test of [find_blend_files] exactly when it is
    some stem followed by six characters that lower-case to [".blend"];
    such a name has at least six characters, and the test does not depend
    on the case of the name. *)
Theorem blend_name_test (f : string) :
  (is_blend f = true <->
   exists stem ext, f = (stem ++ ext)%string /\ PyStr.lower ext = ".blend") /\
  (is_blend f = true -> 6 <= String.length f) /\
  is_blend (PyStr.lower f) = is_blend f.
Proof.
  split; [apply is_blend_spec|]. split.
  - unfold is_blend, PyStr.endswith. rewrite andb_true_iff, Nat.leb_le, length_lower.
    intros [H _]. exact H.
  - unfold is_blend. now rewrite lower_idempotent.
Qed.

(** ** Paths built by [os.path.join] *)

Lemma join_ends_with_name (a b : string) :
  exists x, os_path_join a b = (x ++ b)%string.
Proof.
  unfold os_path_join. destruct (PyStr.startswith b "/"); [now exists ""|].
  destruct (String.eqb a "" || PyStr.endswith a "/"); [now exists a|].
  exists (a ++ "/")%string. now rewrite string_app_assoc.
Qed.

Lemma is_blend_join (a b : string) : is_blend b = true -> is_blend (os_path_join a b) = true.
Proof.
  intros H. apply is_blend_spec in H as (stem & ext & -> & Hext).
  destruct (join_ends_with_name a (stem ++ ext)) as [x ->].
  apply is_blend_spec. exists (x ++ stem)%string, ext.
  split; [now rewrite string_app_assoc | exact Hext].
Qed.

(** X2. Whatever [os.walk] yields, every path [find_blend_files] returns
    itself ends with [".blend"] up to case. *)
Theorem found_paths_are_blend
        (os_walk : string -> result (list walk_triple)) (dir : string)
        (paths : list string)
        (Hfind : find_blend_files os_walk dir = Ok paths) :
  Forall (fun p => is_blend p = true) paths.
Proof.
  unfold find_blend_files in Hfind. destruct (os_walk dir) as [triples|e]; [|discriminate].
  injection Hfind as <-. rewrite collect_blend_flat. apply Forall_forall. intros p Hp.
  apply in_flat_map in Hp as ([[root dirs] files] & _ & Hp).
  unfold triple_paths in Hp; cbn [fst snd] in Hp.
  apply in_map_iff in Hp as (f & <- & Hf). apply filter_In in Hf as [_ Hf].
  now apply is_blend_join.
Qed.

Lemma found_paths_are_blend_witness :
  find_blend_files (os_walk_tree sample_tree) directory
  = Ok [ "./../fish.blend"; "./../old.blend/Reef.BLEND"; "./../tex/deep/kelp.Blend" ] /\
  Forall (fun p => is_blend p = true)
         [ "./../fish.blend"; "./../old.blend/Reef.BLEND"; "./../tex/deep/kelp.Blend" ].
Proof.
  assert (Hf : find_blend_files (os_walk_tree sample_tree) directory
               = Ok [ "./../fish.blend"; "./../old.blend/Reef.BLEND";
                      "./../tex/deep/kelp.Blend" ]) by (vm_compute; reflexivity).
  split; [exact Hf | exact (found_paths_are_blend _ _ _ Hf)].
Defined.

(** ** Discovery, directory by directory *)

Lemma flat_map_flat_map {A B C : Type} (f : A -> list B) (g : B -> list C) (l : list A) :
  flat_map g (flat_map f l) = flat_map (fun x => flat_map g (f x)) l.
Proof.
  induction l as [|x l IH]; [reflexivity|].
  cbn [flat_map]. now rewrite flat_map_app, IH.
Qed.

Lemma discovered_some (es : list entry) (top : string) :
  discovered (Some es) top = flat_map triple_paths (walk top es).
Proof.
  unfold discovered, find_blend_files. cbn [os_walk_tree]. apply collect_blend_flat.
Qed.

(** X3. Over a tree, [find_blend_files] lists first the matching files of
    the top directory, in the order of the listing, then what it lists
    for each entry's own directory in turn, under the top joined with the
    entry's name; an entry that is no scanned directory adds nothing. *)
Theorem discovery_by_directory (es : list entry) (top : string) :
  discovered (Some es) top
  = map (os_path_join top) (filter is_blend (scan_nondirs es))
    ++ flat_map
         (fun e =>
            match e with
            | Dir d ch => discovered (Some ch) (os_path_join top d)
            | _ => []
            end)
         es.
Proof.
  rewrite discovered_some, paths_walk, flat_map_flat_map. f_equal.
  apply flat_map_ext. intros [n|d ch|n ch|n ch]; try reflexivity.
  now rewrite discovered_some.
Qed.

(** ** Well-named trees *)

Lemma has_slash_app (a b : string) :
  has_slash (a ++ b) = has_slash a || has_slash b.
Proof. induction a as [|c a IH]; simpl; [reflexivity|]. now rewrite IH, orb_assoc. Qed.

Lemma good_name_inv (n : string) :
  good_name n = true -> n <> "" /\ has_slash n = false.
Proof.
  unfold good_name. rewrite andb_true_iff, !negb_true_iff, String.eqb_neq. tauto.
Qed.

Lemma no_slash_no_lead (n : string) :
  has_slash n = false -> PyStr.startswith n "/" = false.
Proof.
  unfold PyStr.startswith. destruct n as [|c r]; [reflexivity|].
  cbn [has_slash String.prefix]. intros H. apply orb_false_iff in H as [H _].
  destruct (ascii_dec "/" c) as [<-|]; [discriminate | reflexivity].
Qed.

Lemma trailing_slash (x d stem : string) :
  (x ++ d = stem ++ "/")%string -> d <> "" -> has_slash d = true.
Proof.
  revert stem; induction x as [|c x IH]; intros stem H Hd.
  - cbn in H. subst d. rewrite has_slash_app. apply orb_true_r.
  - destruct stem as [|c' stem]; cbn in H; injection H as _ H.
    + destruct x; [cbn in H; contradiction | discriminate].
    + eauto.
Qed.

Lemma no_trailing_slash (x d : string) :
  good_name d = true -> PyStr.endswith (x ++ d) "/" = false.
Proof.
  intros Hg. apply good_name_inv in Hg as [Hd Hs].
  destruct (PyStr.endswith (x ++ d) "/") eqn:E; [|reflexivity].
  apply endswith_spec in E as [stem E].
  apply trailing_slash in E; [congruence | exact Hd].
Qed.

Lemma app_not_empty (x d : string) : d <> "" -> String.eqb (x ++ d) "" = false.
Proof.
  intros Hd. apply String.eqb_neq. destruct x; cbn; [exact Hd | discriminate].
Qed.

Lemma join_good (top n : string) :
  has_slash n = false -> os_path_join top n = (base top ++ n)%string.
Proof.
  intros H. unfold os_path_join, base. rewrite no_slash_no_lead by exact H.
  destruct (String.eqb top "" || PyStr.endswith top "/"); [reflexivity|].
  now rewrite string_app_assoc.
Qed.

Lemma base_join (top d : string) :
  good_name d = true -> base (os_path_join top d) = (base top ++ d ++ "/")%string.
Proof.
  intros Hg. destruct (good_name_inv d Hg) as [Hd Hs].
  rewrite join_good by exact Hs. unfold base at 1.
  rewrite app_not_empty by exact Hd. rewrite no_trailing_slash by exact Hg.
  cbn [orb]. apply string_app_assoc.
Qed.

Lemma first_slash (d1 d2 r1 r2 : string) :
  has_slash d1 = false -> has_slash d2 = false ->
  (d1 ++ "/" ++ r1 = d2 ++ "/" ++ r2)%string -> d1 = d2 /\ r1 = r2.
Proof.
  revert d2; induction d1 as [|c d1 IH]; intros [|c' d2] H1 H2 H; cbn in *.
  - injection H as ->. auto.
  - injection H as <- _. now rewrite Ascii.eqb_refl in H2.
  - injection H as -> _. now rewrite Ascii.eqb_refl in H1.
  - injection H as -> H. apply orb_false_iff in H1 as [_ H1], H2 as [_ H2].
    destruct (IH d2 H1 H2 H) as [-> ->]. auto.
Qed.

Lemma distinct_NoDup (l : list string) : distinct l = true -> NoDup l.
Proof.
  induction l as [|x l IH]; cbn [distinct]; intros H; constructor;
    apply andb_true_iff in H as [Hx Hl].
  - intros Hin. apply existsb_eqb_in in Hin. now rewrite Hin in Hx.
  - auto.
Qed.

Lemma NoDup_map_filter {A B : Type} (f : A -> B) (P : A -> bool) (l : list A) :
  NoDup (map f l) -> NoDup (map f (filter P l)).
Proof.
  induction l as [|x l IH]; cbn [map filter]; intros H; [constructor|].
  inversion H as [|y l' Hx Hl]; subst. destruct (P x); cbn [map]; [|auto].
  constructor; [|auto]. intros Hin. apply Hx.
  apply in_map_iff in Hin as (z & <- & Hz). apply filter_In in Hz as [Hz _].
  now apply in_map.
Qed.

Lemma NoDup_map_inj {A B : Type} (f : A -> B) (l : list A) :
  (forall x y, f x = f y -> x = y) -> NoDup l -> NoDup (map f l).
Proof.
  intros Hinj. induction 1 as [|x l Hx Hl IH]; cbn [map]; constructor; [|exact IH].
  intros Hin. apply in_map_iff in Hin as (y & E & Hy). apply Hinj in E. now subst.
Qed.

Lemma forallb_well_named (es : list entry) (e : entry) :
  forallb well_named es = true -> In e es -> well_named e = true.
Proof. intros H. rewrite forallb_forall in H. apply H. Qed.

Lemma well_named_good (e : entry) : well_named e = true -> good_name (entry_name e) = true.
Proof. destruct e; cbn [well_named]; intros H; apply andb_true_iff in H; tauto. Qed.

Lemma well_named_dir (d : string) (ch : list entry) :
  well_named (Dir d ch) = true ->
  good_name d = true /\ distinct (map entry_name ch) = true
  /\ forallb well_named ch = true.
Proof. cbn [well_named entry_name]. rewrite !andb_true_iff. tauto. Qed.

Lemma nondirs_good (es : list entry) (n : string) :
  forallb well_named es = true -> In n (scan_nondirs es) -> good_name n = true.
Proof.
  intros H Hn. apply in_scan_nondirs in Hn.
  exact (well_named_good _ (forallb_well_named es _ H Hn)).
Qed.

Lemma rel_sub_dir (d : string) (ch : list entry) :
  rel_sub (Dir d ch) = map (fun r => (d ++ "/" ++ r)%string) (rel_paths ch).
Proof. reflexivity. Qed.

(** The paths collected are the relative paths after the base of the top. *)
Lemma paths_rel_children (es : list entry) :
  Forall (fun e => well_named e = true ->
                   forall top, flat_map triple_paths (walk_sub top e)
                               = map (String.append (base top)) (rel_sub e)) es ->
  forallb well_named es = true ->
  forall top, flat_map triple_paths (walk top es)
              = map (String.append (base top)) (rel_paths es).
Proof.
  intros Hall Hwn top. rewrite paths_walk. unfold rel_paths. rewrite map_app. f_equal.
  - apply map_ext_in. intros n Hn. apply filter_In in Hn as [Hn _].
    apply join_good. now apply (good_name_inv n (nondirs_good es n Hwn Hn)).
  - clear - Hall Hwn. induction Hall as [|e es He Hes IH]; [reflexivity|].
    cbn [forallb] in Hwn. apply andb_true_iff in Hwn as [Hwe Hwn].
    cbn [flat_map]. rewrite flat_map_app, map_app, IH by exact Hwn.
    f_equal. now apply He.
Qed.

Lemma paths_rel_entry (e : entry) :
  well_named e = true ->
  forall top, flat_map triple_paths (walk_sub top e)
              = map (String.append (base top)) (rel_sub e).
Proof.
  induction e as [n|d ch IH|n ch IH|n ch IH] using entry_forall_ind; intros Hw top; try reflexivity.
  destruct (well_named_dir d ch Hw) as (Hg & _ & Hch).
  rewrite walk_sub_dir, rel_sub_dir, (paths_rel_children ch IH Hch), base_join by exact Hg.
  rewrite map_map. apply map_ext. intros r. now rewrite !string_app_assoc.
Qed.

Lemma paths_rel (es : list entry) (top : string) :
  forallb well_named es = true ->
  flat_map triple_paths (walk top es) = map (String.append (base top)) (rel_paths es).
Proof.
  intros Hwn. apply paths_rel_children; [|exact Hwn].
  apply Forall_forall. intros e _. apply paths_rel_entry.
Qed.

Lemma rel_sub_shape (e : entry) (x : string) :
  In x (rel_sub e) ->
  exists r, x = (entry_name e ++ "/" ++ r)%string /\ is_dir e = true.
Proof.
  destruct e as [n|d ch|n ch|n ch]; cbn [rel_sub]; try contradiction.
  intros H. apply in_map_iff in H as (r & <- & _). now exists r.
Qed.

Lemma NoDup_rel_subs (es : list entry) :
  Forall (fun e => well_named e = true -> NoDup (rel_sub e)) es ->
  distinct (map entry_name es) = true ->
  forallb well_named es = true ->
  NoDup (flat_map rel_sub es).
Proof.
  induction 1 as [|e es He Hes IH]; intros Hd Hwn; [constructor|].
  cbn [map distinct forallb flat_map] in *.
  apply andb_true_iff in Hd as [Hfresh Hd]. apply andb_true_iff in Hwn as [Hwe Hwn].
  apply NoDup_app; [now apply He | now apply IH|].
  intros x Hx Hx'. apply rel_sub_shape in Hx as (r & -> & _).
  apply in_flat_map in Hx' as (e' & He' & Hx').
  apply rel_sub_shape in Hx' as (r' & E & _).
  assert (Hg := good_name_inv _ (well_named_good e Hwe)).
  assert (Hg' := good_name_inv _ (well_named_good e' (forallb_well_named es e' Hwn He'))).
  apply first_slash in E as [E _]; [|tauto|tauto].
  apply negb_true_iff in Hfresh.
  assert (Hin : In (entry_name e) (map entry_name es)) by (rewrite E; now apply in_map).
  apply existsb_eqb_in in Hin. congruence.
Qed.

Lemma NoDup_rel_children (es : list entry) :
  Forall (fun e => well_named e = true -> NoDup (rel_sub e)) es ->
  distinct (map entry_name es) = true ->
  forallb well_named es = true ->
  NoDup (rel_paths es).
Proof.
  intros Hall Hd Hwn. unfold rel_paths. apply NoDup_app.
  - apply NoDup_filter. unfold scan_nondirs. apply NoDup_map_filter.
    now apply distinct_NoDup.
  - now apply NoDup_rel_subs.
  - intros n Hn Hn'. apply filter_In in Hn as [Hn _].
    assert (Hg := good_name_inv n (nondirs_good es n Hwn Hn)).
    apply in_flat_map in Hn' as (e & _ & Hx). apply rel_sub_shape in Hx as (r & E & _).
    destruct Hg as [_ Hs]. rewrite E, !has_slash_app in Hs. cbn in Hs.
    now rewrite orb_true_r in Hs.
Qed.

Lemma NoDup_rel_entry (e : entry) : well_named e = true -> NoDup (rel_sub e).
Proof.
  induction e as [n|d ch IH|n ch IH|n ch IH] using entry_forall_ind; intros Hw; try constructor.
  destruct (well_named_dir d ch Hw) as (Hg & Hd & Hch).
  rewrite rel_sub_dir. apply NoDup_map_inj.
  - intros x y E. now apply string_app_inj, string_app_inj in E.
  - now apply NoDup_rel_children.
Qed.

Lemma discovered_rel (root : tree) (top : string) :
  well_named_tree root = true ->
  discovered root top = map (String.append (base top)) (rel_paths (top_entries root)).
Proof.
  intros Hw. apply andb_true_iff in Hw as [_ Hwn]. destruct root as [es|]; [|reflexivity].
  rewrite discovered_some. now apply paths_rel.
Qed.

(** X4. Over a tree whose entries have proper names (not empty, without
    [/]) that are distinct within each directory, [find_blend_files]
    returns no path twice: each key of the two result mappings is
    discovered once. *)
Theorem discovered_paths_distinct (root : tree) (top : string)
        (Hnames : well_named_tree root = true) :
  NoDup (discovered root top).
Proof.
  rewrite discovered_rel by exact Hnames.
  apply andb_true_iff in Hnames as [Hd Hwn].
  apply NoDup_map_inj; [intros x y; apply string_app_inj|].
  apply NoDup_rel_children; [|exact Hd | exact Hwn].
  apply Forall_forall. intros e _. apply NoDup_rel_entry.
Qed.

Lemma discovered_paths_distinct_witness :
  well_named_tree nested_tree = true /\
  discovered nested_tree directory
  = [ "./../a.blend"; "./../a/a.blend"; "./../a/a/a.BLEND"; "./../b/a.blend" ] /\
  NoDup (discovered nested_tree directory).
Proof.
  split; [reflexivity|]. split; [vm_compute; reflexivity|].
  apply (discovered_paths_distinct nested_tree directory). reflexivity.
Defined.

Lemma substring_app_take (a b : string) :
  substring 0 (String.length a) (a ++ b) = a.
Proof.
  induction a as [|c a IH]; cbn; [destruct b; reflexivity|]. now rewrite IH.
Qed.

(** X5. Over such a tree every path returned lies under the top
    directory: it is the top, a separator unless the top is empty or ends
    with one, and a relative path. *)
Theorem discovered_paths_under_top (root : tree) (top : string) (p : string)
        (Hnames : well_named_tree root = true)
        (Hin : In p (discovered root top)) :
  (exists r, p = (base top ++ r)%string /\ In r (rel_paths (top_entries root))) /\
  String.prefix top p = true.
Proof.
  rewrite discovered_rel in Hin by exact Hnames.
  apply in_map_iff in Hin as (r & <- & Hr). split; [eauto|].
  apply prefix_correct. unfold base.
  destruct (String.eqb top "" || PyStr.endswith top "/").
  - apply substring_app_take.
  - rewrite string_app_assoc. apply substring_app_take.
Qed.

Lemma discovered_paths_under_top_witness :
  well_named_tree nested_tree = true /\
  In "./../a/a/a.BLEND" (discovered nested_tree directory) /\
  String.prefix directory "./../a/a/a.BLEND" = true.
Proof.
  assert (Hin : In "./../a/a/a.BLEND" (discovered nested_tree directory))
    by (vm_compute; auto).
  split; [reflexivity|]. split; [exact Hin|].
  exact (proj2 (discovered_paths_under_top nested_tree directory _ eq_refl Hin)).
Defined.

(** ** More on whole runs *)

Lemma flat_map_nil {A B : Type} (f : A -> list B) (l : list A) :
  (forall x, In x l -> f x = []) -> flat_map f l = [].
Proof.
  induction l as [|x l IH]; intros H; [reflexivity|].
  cbn [flat_map]. rewrite H by (now left). apply IH. intros y Hy. apply H. now right.
Qed.

(** X6. When every discovered file can be loaded, links no library and
    is not above 50 MiB (in particular when none is discovered), the run
    finishes and prints the header line alone. *)
Theorem clean_run_prints_header_only
        (os_walk : string -> result (list walk_triple))
        (d : disk) (h : host) (paths : list string)
        (Hfind : find_blend_files os_walk directory = Ok paths)
        (Hclean : forall p, In p paths ->
                            exists sz, d p = Some (mkBlend sz (Some []))
                                       /\ (sz <= 50 * 1024 * 1024)%Z) :
  exists s', run os_walk d h = (Ok tt, s') /\ stdout s' = ["Final Results:"].
Proof.
  assert (E : loop_error d paths = None).
  { apply loop_error_none, Forall_forall. intros p Hp.
    destruct (Hclean p Hp) as (sz & Hd & _). unfold inspect_error. now rewrite Hd. }
  eexists. split; [apply (run_finished os_walk d h paths Hfind E)|].
  cbn [printed stdout]. rewrite loop_state_stdout, finished_libs, finished_size.
  cbn [started stdout app]. unfold report_lines, dict_items. f_equal.
  rewrite flat_map_nil, filter_none; [reflexivity| |].
  - intros p Hp. apply (proj1 (in_uniq p paths)) in Hp.
    destruct (Hclean p Hp) as (sz & Hd & Hsz).
    unfold oversized, size_of, size_limit. rewrite Hd. cbn [st_size].
    destruct (Z.gtb_spec sz (50 * 1024 * 1024)); [lia | reflexivity].
  - intros item Hitem. apply in_map_iff in Hitem as (p & <- & Hp).
    apply (proj1 (in_uniq p paths)) in Hp.
    destruct (Hclean p Hp) as (sz & Hd & _).
    unfold keyed, libs_lines, libs_of. cbn [snd]. now rewrite Hd.
Qed.

Lemma clean_run_prints_header_only_witness :
  find_blend_files (os_walk_tree clean_tree) directory
  = Ok ["./../small.blend"; "./../sub/edge.BLEND"] /\
  (forall p, In p ["./../small.blend"; "./../sub/edge.BLEND"] ->
             exists sz, clean_disk p = Some (mkBlend sz (Some []))
                        /\ (sz <= 50 * 1024 * 1024)%Z) /\
  exists s', run (os_walk_tree clean_tree) clean_disk startup = (Ok tt, s')
             /\ stdout s' = ["Final Results:"].
Proof.
  assert (Hf : find_blend_files (os_walk_tree clean_tree) directory
               = Ok ["./../small.blend"; "./../sub/edge.BLEND"])
    by (vm_compute; reflexivity).
  assert (Hclean : forall p, In p ["./../small.blend"; "./../sub/edge.BLEND"] ->
                             exists sz, clean_disk p = Some (mkBlend sz (Some []))
                                        /\ (sz <= 50 * 1024 * 1024)%Z).
  { intros p [<-|[<-|[]]]; eexists; (split; [reflexivity|]); now apply Z.leb_le. }
  split; [exact Hf|]. split; [exact Hclean|].
  exact (clean_run_prints_header_only (os_walk_tree clean_tree) clean_disk startup _
                                      Hf Hclean).
Defined.

Lemma loop_state_app (pre rest : list string) (s : state) :
  loop_state (pre ++ rest) s = loop_state rest (loop_state pre s).
Proof. unfold loop_state. apply fold_left_app. Qed.

Lemma loop_state_host (paths : list string) (s : state) :
  st_host (loop_state paths s)
  = match rev paths with
    | [] => st_host s
    | p :: _ => [mkDocument p (table_of (st_disk s) p)]
    end.
Proof.
  destruct paths as [|q paths] using rev_ind; [reflexivity|].
  rewrite rev_unit, loop_state_app. cbn [loop_state fold_left inspected st_host].
  now rewrite loop_state_disk.
Qed.

(** X7. A run that finishes leaves the host with the file discovered
    last as its one open document, holding that file's library table; when
    nothing was discovered the host is as it was. *)
Theorem host_after_run
        (os_walk : string -> result (list walk_triple))
        (d : disk) (h : host) (paths : list string) (s' : state)
        (Hfind : find_blend_files os_walk directory = Ok paths)
        (Hrun : run os_walk d h = (Ok tt, s')) :
  st_host s'
  = match rev paths with
    | [] => h
    | p :: _ => [mkDocument p (table_of d p)]
    end.
Proof.
  destruct (run_ok_inv os_walk d h s' Hrun) as (paths' & Hf' & _ & ->).
  assert (paths' = paths) by congruence. subst paths'.
  cbn [printed st_host]. apply loop_state_host.
Qed.

Lemma host_after_run_witness :
  find_blend_files (os_walk_tree demo_tree) directory
  = Ok ["./../scene.blend"; "./../props/rock.blend"] /\
  fst (run (os_walk_tree demo_tree) demo_disk startup) = Ok tt /\
  st_host (snd (run (os_walk_tree demo_tree) demo_disk startup))
  = [mkDocument "./../props/rock.blend" []].
Proof.
  assert (Hf : find_blend_files (os_walk_tree demo_tree) directory
               = Ok ["./../scene.blend"; "./../props/rock.blend"])
    by (vm_compute; reflexivity).
  assert (Hr : run (os_walk_tree demo_tree) demo_disk startup
               = (Ok tt, snd (run (os_walk_tree demo_tree) demo_disk startup)))
    by (vm_compute; reflexivity).
  split; [exact Hf|]. split; [vm_compute; reflexivity|].
  exact (host_after_run _ _ _ _ _ Hf Hr).
Defined.

(** X8. The run stops at the first file that cannot be inspected: the
    calls made are those of the files before it, then the size reading of
    the failing file and, only if that file is on disk, its load.  The
    files after it are neither measured nor loaded, the host keeps the
    last file loaded before it, and the library mapping holds the entries
    of the files before it. *)
Theorem run_stops_at_first_failure
        (os_walk : string -> result (list walk_triple))
        (d : disk) (h : host) (pre post : list string) (p : string) (e : exn)
        (Hfind : find_blend_files os_walk directory = Ok (pre ++ p :: post))
        (Hpre : Forall (fun q => inspect_error d q = None) pre)
        (Hp : inspect_error d p = Some e) :
  exists s',
    run os_walk d h = (Raise e, s') /\
    map fst (trace s')
    = EWalk directory :: flat_map inspect_calls pre
      ++ EGetsize p :: match d p with
                       | None => []
                       | Some _ => [EOpenMainfile p]
                       end /\
    st_host s' = match rev pre with
                 | [] => h
                 | q :: _ => [mkDocument q (table_of d q)]
                 end /\
    results_libs s' = map (keyed (libs_of d)) (uniq pre).
Proof.
  rewrite (run_unfold os_walk d h _ Hfind).
  rewrite loop_app by (cbn [started st_disk]; now apply loop_error_none).
  rewrite for_each_cons.
  assert (Hev := loop_state_events pre (started d h)).
  assert (Hh := loop_state_host pre (started d h)).
  assert (Hl := finished_libs d h pre).
  assert (Hd := loop_state_disk pre (started d h)).
  cbn [started st_disk st_host trace map fst app] in Hev, Hh, Hd.
  unfold inspect_error in Hp.
  destruct (d p) as [[sz [libs|]]|] eqn:Hdp; try discriminate; injection Hp as <-.
  - assert (Hdp' : st_disk (loop_state pre (started d h)) p = Some (mkBlend sz None))
      by (rewrite Hd; exact Hdp).
    destruct (inspect_unreadable p _ sz Hdp') as (s' & E & _ & Hs & L & _ & _ & T).
    rewrite E. exists s'. split; [reflexivity|].
    split; [|split; [congruence | congruence]].
    rewrite T, map_app, Hev. reflexivity.
  - rewrite inspect_missing by (rewrite Hd; exact Hdp).
    eexists. split; [reflexivity|]. unfold log; cbn [trace st_host results_libs].
    split; [|split; [exact Hh | exact Hl]].
    rewrite map_app, Hev. reflexivity.
Qed.

Lemma run_stops_at_first_failure_witness :
  exists s',
    run (os_walk_tree corrupt_tree) corrupt_disk startup
    = (Raise (RuntimeError "./../broken.blend"), s') /\
    map fst (trace s')
    = [ EWalk "./../"; EGetsize "./../a.blend"; EOpenMainfile "./../a.blend";
        EDataLibraries; EGetsize "./../broken.blend"; EOpenMainfile "./../broken.blend" ] /\
    st_host s' = [mkDocument "./../a.blend" [mkLibrary "//lib/water.blend"]].
Proof.
  destruct (run_stops_at_first_failure
              (os_walk_tree corrupt_tree) corrupt_disk startup
              ["./../a.blend"] ["./../z.blend"] "./../broken.blend"
              (RuntimeError "./../broken.blend"))
    as (s' & Hr & Ht & Hh & _).
  - vm_compute; reflexivity.
  - constructor; [reflexivity | constructor].
  - reflexivity.
  - exists s'. split; [exact Hr|]. split; [exact Ht | exact Hh].
Defined.

(** X9. After a run that finishes, looking a discovered path up in the
    library mapping gives the file paths of the libraries the host lists
    for that file, in the host's order; a path that was not discovered is
    a missing key of both mappings. *)
Theorem library_mapping_lookup
        (os_walk : string -> result (list walk_triple))
        (d : disk) (h : host) (paths : list string) (s' : state)
        (Hfind : find_blend_files os_walk directory = Ok paths)
        (Hrun : run os_walk d h = (Ok tt, s')) :
  (forall p sz libs,
      In p paths -> d p = Some (mkBlend sz (Some libs)) ->
      dict_get (results_libs s') p = Some (map filepath libs)) /\
  (forall p, ~ In p paths ->
             dict_get (results_libs s') p = None /\ dict_get (results_size s') p = None).
Proof.
  destruct (finished_state os_walk d h paths s' Hfind Hrun)
    as (_ & _ & Hlibs & Hsize & _ & _).
  rewrite Hlibs, Hsize. split.
  - intros p sz libs Hp Hd. rewrite dict_get_keyed.
    apply (proj2 (in_uniq p paths)), existsb_eqb_in in Hp.
    rewrite Hp. unfold libs_of. now rewrite Hd.
  - intros p Hp. rewrite !dict_get_keyed.
    assert (H1 : existsb (String.eqb p) (uniq paths) = false).
    { destruct (existsb (String.eqb p) (uniq paths)) eqn:E; [|reflexivity].
      apply existsb_eqb_in in E. apply (proj1 (in_uniq p paths)) in E. contradiction. }
    assert (H2 : existsb (String.eqb p) (filter (oversized d) (uniq paths)) = false).
    { destruct (existsb (String.eqb p) (filter (oversized d) (uniq paths))) eqn:E;
        [|reflexivity].
      apply existsb_eqb_in, filter_In in E as [E _].
      apply (proj1 (in_uniq p paths)) in E. contradiction. }
    now rewrite H1, H2.
Qed.

Lemma library_mapping_lookup_witness :
  find_blend_files (os_walk_tree demo_tree) directory
  = Ok ["./../scene.blend"; "./../props/rock.blend"] /\
  fst (run (os_walk_tree demo_tree) demo_disk startup) = Ok tt /\
  dict_get (results_libs (snd (run (os_walk_tree demo_tree) demo_disk startup)))
           "./../scene.blend"
  = Some ["//props/rock.blend"; "//lib/water.blend"].
Proof.
  assert (Hf : find_blend_files (os_walk_tree demo_tree) directory
               = Ok ["./../scene.blend"; "./../props/rock.blend"])
    by (vm_compute; reflexivity).
  assert (Hr : run (os_walk_tree demo_tree) demo_disk startup
               = (Ok tt, snd (run (os_walk_tree demo_tree) demo_disk startup)))
    by (vm_compute; reflexivity).
  split; [exact Hf|]. split; [vm_compute; reflexivity|].
  apply (proj1 (library_mapping_lookup _ _ _ _ _ Hf Hr) "./../scene.blend" (10 * MiB)%Z
               [mkLibrary "//props/rock.blend"; mkLibrary "//lib/water.blend"]);
    [left; reflexivity | reflexivity].
Defined.

(** ** More on the printed size *)

Lemma round_half_even_unique (a b q : Z) :
  (0 < b)%Z -> (2 * Z.abs (a - q * b) < b)%Z -> PyFloat.round_half_even a b = q.
Proof.
  intros Hb Hq. assert (Hx := round_half_even_near a b Hb).
  set (x := PyFloat.round_half_even a b) in *. nia.
Qed.

(** X10. A file of a whole number [n] of mebibytes is printed as [n.00]. *)
Theorem format_whole_mebibytes (n : Z)
        (Hn : (0 <= n)%Z) (Hsmall : (n * MiB < 2 ^ 53)%Z) :
  PyFloat.format_mib_2f (n * MiB) = (PyStr.str_of_N (Z.to_N n) ++ ".00")%string.
Proof.
  unfold PyFloat.format_mib_2f. rewrite to_double_exact by (unfold MiB in *; lia).
  assert (Hh : PyFloat.hundredths (n * MiB) = (n * 100)%Z).
  { unfold PyFloat.hundredths. change (2 ^ 20)%Z with MiB.
    apply round_half_even_unique; [reflexivity|].
    replace (n * MiB * 100 - n * 100 * MiB)%Z with 0%Z by lia. reflexivity. }
  rewrite Hh, Z.div_mul, Z.mod_mul by lia. reflexivity.
Qed.

Lemma format_whole_mebibytes_witness :
  (0 <= 60)%Z /\ (60 * MiB < 2 ^ 53)%Z /\ PyFloat.format_mib_2f (60 * MiB) = "60.00".
Proof.
  split; [discriminate|]. split; [reflexivity|].
  apply (format_whole_mebibytes 60); [discriminate | reflexivity].
Defined.



(** X12. The report is all or nothing: a run either finishes, and its
    output starts with the header line, or ends with an exception, and
    nothing at all was printed. *)
Theorem report_all_or_nothing
        (os_walk : string -> result (list walk_triple)) (d : disk) (h : host) :
  (fst (run os_walk d h) = Ok tt /\
   exists rest, stdout (snd (run os_walk d h)) = "Final Results:" :: rest) \/
  (exists e, fst (run os_walk d h) = Raise e /\ stdout (snd (run os_walk d h)) = []).
Proof.
  destruct (run os_walk d h) as [[[]|e] s'] eqn:Hrun; cbn [fst snd].
  - left. split; [reflexivity|].
    destruct (run_ok_inv os_walk d h s' Hrun) as (paths & _ & _ & ->).
    cbn [printed stdout]. rewrite loop_state_stdout. cbn [started stdout app].
    unfold report_lines. eauto.
  - right. exists e. split; [reflexivity|].
    destruct (run_quiet os_walk d h) as (_ & Hout & _). rewrite Hrun in Hout.
    apply Hout. cbn [fst]. discriminate.
Qed.
